(** * xlog: the development-mode handler chain, embedded and verified

    A shallow embedding of the Go package [xlog] (a structured logging
    front end over [log/slog]): the context-injecting handler, the
    colourised line formatter, the attribute renderer and the logging
    entry points, followed by the properties of the specification that
    were checked against them.

    Go strings and byte slices are [string] (a sequence of 8-bit
    [ascii] bytes); integers are [Z]; slices are [list]. *)

From Stdlib Require Import ZArith List String Ascii Bool Lia Arith DecimalString.
Import ListNotations.
Local Open Scope string_scope.
Local Open Scope Z_scope.

(** ** Go strings *)

Module GoString.

(** [byteZ c] is the numeric value of the byte [c]; [zbyte] is Go's
    conversion [byte(z)]. *)
Definition byteZ (c : ascii) : Z := Z.of_N (N_of_ascii c).
Definition zbyte (z : Z) : ascii := ascii_of_N (Z.to_N (z mod 256)).

(** A one-byte string. *)
Definition chr (z : Z) : string := String (zbyte z) EmptyString.

(** [s[i]], with 0 standing for an index out of range (never reached
    where the Go code has checked the length first). *)
Definition byteAt (s : string) (i : nat) : Z :=
  match String.get i s with
  | Some c => byteZ c
  | None => 0
  end.

(** [s[n:]] *)
Fixpoint drop (n : nat) (s : string) : string :=
  match n, s with
  | O, _ => s
  | S n', String _ s' => drop n' s'
  | S _, EmptyString => EmptyString
  end.

(** [s[:n]] *)
Fixpoint take (n : nat) (s : string) : string :=
  match n, s with
  | O, _ => EmptyString
  | S n', String c s' => String c (take n' s')
  | S _, EmptyString => EmptyString
  end.

Definition isEmpty (s : string) : bool :=
  match s with
  | EmptyString => true
  | String _ _ => false
  end.

(** The bytes of a string, as numbers. *)
Definition bytes (s : string) : list Z := map byteZ (list_ascii_of_string s).

(** Number of occurrences of the byte [b] in [s]. *)
Fixpoint countByte (b : Z) (s : string) : nat :=
  match s with
  | EmptyString => O
  | String c s' =>
      ((if Z.eqb (byteZ c) b then 1 else 0) + countByte b s')%nat
  end.

(** [strings.HasSuffix] for a one-byte suffix. *)
Fixpoint endsWithByte (b : Z) (s : string) : bool :=
  match s with
  | EmptyString => false
  | String c EmptyString => byteZ c =? b
  | String _ s' => endsWithByte b s'
  end.

End GoString.
Import GoString.

(** ** unicode/utf8 *)

Module Utf8.

Definition RuneError : Z := 0xFFFD.
Definition RuneSelf : Z := 0x80.
Definition MaxRune : Z := 0x10FFFF.
Definition surrogateMin : Z := 0xD800.
Definition surrogateMax : Z := 0xDFFF.
Definition rune1Max : Z := 0x7F.
Definition rune2Max : Z := 0x7FF.
Definition rune3Max : Z := 0xFFFF.

(** Entries of the table [first]: the low three bits are the length of
    the sequence, the high four bits index [acceptRanges]. *)
Definition xx : Z := 0xF1.
Definition as_ : Z := 0xF0.
Definition s1 : Z := 0x02.
Definition s2 : Z := 0x13.
Definition s3 : Z := 0x03.
Definition s4 : Z := 0x23.
Definition s5 : Z := 0x34.
Definition s6 : Z := 0x04.
Definition s7 : Z := 0x44.

(** The table [first[256]], by ranges of the leading byte. *)
Definition first (b : Z) : Z :=
  if b <? 0x80 then as_
  else if b <? 0xC2 then xx
  else if b <? 0xE0 then s1
  else if b =? 0xE0 then s2
  else if b <? 0xED then s3
  else if b =? 0xED then s4
  else if b <? 0xF0 then s3
  else if b =? 0xF0 then s5
  else if b <? 0xF4 then s6
  else if b =? 0xF4 then s7
  else xx.

(** [acceptRanges[i]]: the bounds on the second byte. *)
Definition acceptRanges (i : Z) : Z * Z :=
  if i =? 0 then (0x80, 0xBF)
  else if i =? 1 then (0xA0, 0xBF)
  else if i =? 2 then (0x80, 0x9F)
  else if i =? 3 then (0x90, 0xBF)
  else if i =? 4 then (0x80, 0x8F)
  else (0, 0).

Definition locb : Z := 0x80.
Definition hicb : Z := 0xBF.

(** [utf8.DecodeRuneInString]: the first rune of [s] and its width in
    bytes.  The masks and shifts of the Go code are written as [mod]
    and multiplication: [s0&mask2] is [s0 mod 32], [x<<6] is [x * 64],
    and the operands of [|] have no bit in common. *)
Definition DecodeRuneInString (s : string) : Z * nat :=
  let n := String.length s in
  if (n <? 1)%nat then (RuneError, O) else
  let s0 := byteAt s 0 in
  let x := first s0 in
  if as_ <=? x then
    (if Z.odd x then RuneError else s0, 1%nat)
  else
    let sz := Z.to_nat (x mod 8) in
    let accept := acceptRanges (x / 16) in
    if (n <? sz)%nat then (RuneError, 1%nat) else
    let b1 := byteAt s 1 in
    if (b1 <? fst accept) || (snd accept <? b1) then (RuneError, 1%nat) else
    if (sz <=? 2)%nat then ((s0 mod 32) * 64 + b1 mod 64, 2%nat) else
    let b2 := byteAt s 2 in
    if (b2 <? locb) || (hicb <? b2) then (RuneError, 1%nat) else
    if (sz <=? 3)%nat then
      ((s0 mod 16) * 4096 + (b1 mod 64) * 64 + b2 mod 64, 3%nat) else
    let b3 := byteAt s 3 in
    if (b3 <? locb) || (hicb <? b3) then (RuneError, 1%nat) else
    ((s0 mod 8) * 262144 + (b1 mod 64) * 4096 + (b2 mod 64) * 64 + b3 mod 64,
     4%nat).

(** [utf8.ValidRune] *)
Definition ValidRune (r : Z) : bool :=
  ((0 <=? r) && (r <? surrogateMin)) || ((surrogateMax <? r) && (r <=? MaxRune)).

(** [utf8.AppendRune] to an empty buffer, i.e. the UTF-8 encoding of
    [r] ([r>>6] is [r / 64], [t2|b] is [0xC0 + b] for [b < 32]). *)
Definition EncodeRune (r : Z) : string :=
  if (0 <=? r) && (r <=? rune1Max) then chr r
  else if (0 <=? r) && (r <=? rune2Max) then
    chr (0xC0 + r / 64) ++ chr (0x80 + r mod 64)
  else
    let r := if negb (ValidRune r) then RuneError else r in
    if r <=? rune3Max then
      chr (0xE0 + r / 4096) ++ chr (0x80 + (r / 64) mod 64)
        ++ chr (0x80 + r mod 64)
    else
      chr (0xF0 + r / 262144) ++ chr (0x80 + (r / 4096) mod 64)
        ++ chr (0x80 + (r / 64) mod 64) ++ chr (0x80 + r mod 64).

(** The runes a [for _, r := range s] loop visits.  Every step
    consumes at least one byte, so [String.length s] steps suffice. *)
Fixpoint rangeFrom (fuel : nat) (s : string) : list Z :=
  match fuel with
  | O => []
  | S fuel' =>
      match s with
      | EmptyString => []
      | String _ _ =>
          let '(r, w) := DecodeRuneInString s in
          r :: rangeFrom fuel' (drop w s)
      end
  end.

Definition range (s : string) : list Z := rangeFrom (String.length s) s.

End Utf8.

(** ** strconv: quoting and unquoting *)

Module Strconv.
Import Utf8.

Definition lowerhex (d : Z) : Z :=
  if d <? 10 then 48 + d else 87 + d.

(** [unhex]: the value of a hexadecimal digit. *)
Definition unhex (c : Z) : option Z :=
  if (48 <=? c) && (c <=? 57) then Some (c - 48)
  else if (97 <=? c) && (c <=? 102) then Some (c - 97 + 10)
  else if (65 <=? c) && (c <=? 70) then Some (c - 65 + 10)
  else None.

(** [n] hexadecimal digits of [r], most significant first: the loop
    [for s := 4*(n-1); s >= 0; s -= 4 { lowerhex[r>>s & 0xF] }]. *)
Fixpoint hexDigits (n : nat) (r : Z) : string :=
  match n with
  | O => EmptyString
  | S n' => chr (lowerhex ((r / 16 ^ Z.of_nat n') mod 16)) ++ hexDigits n' r
  end.

Section Quote.

(** [strconv.IsPrint] consults Unicode tables above U+00FF; the tables
    are a parameter. *)
Variable isPrintTable : Z -> bool.

Definition IsPrint (r : Z) : bool :=
  if r <=? 0xFF then
    if (0x20 <=? r) && (r <? 0x7F) then true
    else if 0xA1 <=? r then negb (r =? 0xAD)
    else false
  else isPrintTable r.

Definition quoteChar : Z := 34.
Definition backslash : Z := 92.

(** [appendEscapedRune] for the double quote, with [ASCIIonly = false] and
    [graphicOnly = false], producing the appended bytes. *)
Definition escapedRune (r : Z) : string :=
  if (r =? quoteChar) || (r =? backslash) then chr backslash ++ chr r
  else if IsPrint r then EncodeRune r
  else if r =? 7 then chr backslash ++ "a"
  else if r =? 8 then chr backslash ++ "b"
  else if r =? 12 then chr backslash ++ "f"
  else if r =? 10 then chr backslash ++ "n"
  else if r =? 13 then chr backslash ++ "r"
  else if r =? 9 then chr backslash ++ "t"
  else if r =? 11 then chr backslash ++ "v"
  else if (r <? 32) || (r =? 0x7F) then
    chr backslash ++ "x" ++ hexDigits 2 (r mod 256)
  else
    let r' := if negb (ValidRune r) then 0xFFFD else r in
    if negb (ValidRune r) || (r' <? 0x10000) then
      chr backslash ++ "u" ++ hexDigits 4 r'
    else chr backslash ++ "U" ++ hexDigits 8 r'.

(** The loop of [appendQuotedWith]:
    [for width := 0; len(s) > 0; s = s[width:]]. *)
Fixpoint quoteLoop (fuel : nat) (s : string) : string :=
  match fuel with
  | O => EmptyString
  | S fuel' =>
      match s with
      | EmptyString => EmptyString
      | String c _ =>
          let r0 := byteZ c in
          let '(r, width) :=
            if RuneSelf <=? r0 then DecodeRuneInString s else (r0, 1%nat) in
          if (width =? 1)%nat && (r =? RuneError) then
            (chr backslash ++ "x" ++ hexDigits 2 r0)
              ++ quoteLoop fuel' (drop width s)
          else escapedRune r ++ quoteLoop fuel' (drop width s)
      end
  end.

(** [strconv.Quote], which is what [fmt.Sprintf] prints for a string
    under the verb [%q]. *)
Definition Quote (s : string) : string :=
  chr quoteChar ++ quoteLoop (String.length s) s ++ chr quoteChar.

End Quote.

(** [n] hexadecimal digits at the head of [s]:
    [for j := 0; j < n; j++ { x, ok := unhex(s[j]); v = v<<4 | x }]. *)
Fixpoint parseHex (n : nat) (v : Z) (s : string) : option (Z * string) :=
  match n with
  | O => Some (v, s)
  | S n' =>
      match s with
      | EmptyString => None
      | String c s' =>
          match unhex (byteZ c) with
          | Some x => parseHex n' (v * 16 + x) s'
          | None => None
          end
      end
  end.

(** Three octal digits, the first already read. *)
Definition parseOctal (c : Z) (s : string) : option (Z * string) :=
  match s with
  | String c1 (String c2 s') =>
      let x1 := byteZ c1 - 48 in
      let x2 := byteZ c2 - 48 in
      if (x1 <? 0) || (7 <? x1) || (x2 <? 0) || (7 <? x2) then None
      else
        let v := ((c - 48) * 8 + x1) * 8 + x2 in
        if 255 <? v then None else Some (v, s')
  | _ => None
  end.

(** [strconv.UnquoteChar] for the double quote: the value, whether it is
    a multibyte rune, and the tail; [None] is [ErrSyntax]. *)
Definition UnquoteChar (s : string) : option (Z * bool * string) :=
  match s with
  | EmptyString => None
  | String c0 t0 =>
      let c := byteZ c0 in
      if c =? 34 then None
      else if RuneSelf <=? c then
        let '(r, size) := DecodeRuneInString s in
        Some (r, true, drop size s)
      else if negb (c =? 92) then Some (c, false, t0)
      else
        match t0 with
        | EmptyString => None
        | String c1 t1 =>
            let c := byteZ c1 in
            if c =? 97 then Some (7, false, t1)
            else if c =? 98 then Some (8, false, t1)
            else if c =? 102 then Some (12, false, t1)
            else if c =? 110 then Some (10, false, t1)
            else if c =? 114 then Some (13, false, t1)
            else if c =? 116 then Some (9, false, t1)
            else if c =? 118 then Some (11, false, t1)
            else if (c =? 120) || (c =? 117) || (c =? 85) then
              let n := if c =? 120 then 2%nat
                       else if c =? 117 then 4%nat else 8%nat in
              match parseHex n 0 t1 with
              | None => None
              | Some (v, t2) =>
                  if c =? 120 then Some (v, false, t2)
                  else if negb (ValidRune v) then None
                  else Some (v, true, t2)
              end
            else if (48 <=? c) && (c <=? 55) then
              match parseOctal c t1 with
              | Some (v, t2) => Some (v, false, t2)
              | None => None
              end
            else if c =? 92 then Some (92, false, t1)
            else if c =? 39 then None
            else if c =? 34 then Some (34, false, t1)
            else None
        end
  end.

(** The escape-processing loop of [strconv.Unquote] for a
    double-quoted literal, after the opening quote:
    [for len(in) > 0 && in[0] != quote].  It returns the unescaped
    bytes and what follows the closing quote. *)
Fixpoint unquoteLoop (fuel : nat) (s : string) (buf : string)
  : option (string * string) :=
  match fuel with
  | O => None
  | S fuel' =>
      match s with
      | EmptyString => None
      | String c0 t0 =>
          if byteZ c0 =? 34 then Some (buf, t0)
          else
            match UnquoteChar s with
            | None => None
            | Some (r, multibyte, rem) =>
                if byteZ c0 =? 10 then None
                else
                  let buf' :=
                    if (r <? RuneSelf) || negb multibyte
                    then buf ++ chr r
                    else buf ++ EncodeRune r in
                  unquoteLoop fuel' rem buf'
            end
      end
  end.

(** [strconv.Unquote] on a double-quoted literal: [None] is
    [ErrSyntax].  Every step of the loop consumes a byte, so
    [String.length s] steps suffice.  (For a literal with no backslash
    and no newline that is valid UTF-8, Go returns the bytes between
    the quotes without entering the loop; the loop returns the same.) *)
Definition Unquote (s : string) : option string :=
  match s with
  | String q (String c t) =>
      if byteZ q =? 34 then
        match unquoteLoop (String.length s) (String c t) EmptyString with
        | Some (out, EmptyString) => Some out
        | _ => None
        end
      else None
  | _ => None
  end.

End Strconv.

(** ** log/slog: levels, values, attributes and records *)

Module Slog.

Definition Level : Type := Z.
Definition LevelDebug : Level := -4.
Definition LevelInfo : Level := 0.
Definition LevelWarn : Level := 4.
Definition LevelError : Level := 8.

Definition TimeKey : string := "time".

(** An instant; 0 is the zero [time.Time]. *)
Definition Time : Type := Z.
Definition Time_IsZero (t : Time) : bool := t =? 0.

(** A Go value that has no kind of its own in [slog]: [nil], or some
    other value, told apart by an identifier. *)
Inductive Opaque : Type :=
| o_nil
| o_val (id : nat).

(** [slog.Value], by kind.  The value of an attribute is the second
    component of the pair. *)
#[warnings="-register-all"]
Inductive Value : Type :=
| AnyValue (x : Opaque)
| BoolValue (b : bool)
| DurationValue (d : Z)
| Float64Value (bits : Z)
| Int64Value (i : Z)
| StringValue (s : string)
| TimeValue (t : Time)
| Uint64Value (u : Z)
| GroupValue (l : list (string * Value)).

(** [slog.Attr] *)
Definition Attr : Type := (string * Value)%type.
Definition Key (a : Attr) : string := fst a.
Definition Val (a : Attr) : Value := snd a.

(** [a.Equal(slog.Attr{})]: the zero attribute has the empty key and
    the zero value, which is of kind Any and holds [nil]. *)
Definition isEmptyAttr (a : Attr) : bool :=
  isEmpty (Key a) &&
  match Val a with
  | AnyValue o_nil => true
  | _ => false
  end.

(** Nesting depth of the groups of a value. *)
Fixpoint Value_depth (v : Value) : nat :=
  match v with
  | GroupValue l =>
      S (fold_right (fun a m => Nat.max (Value_depth (snd a)) m) O l)
  | _ => O
  end.

Definition Attr_depth (a : Attr) : nat := Value_depth (Val a).

Definition attrs_depth (l : list Attr) : nat :=
  fold_right (fun a m => Nat.max (Attr_depth a) m) O l.

(** A value of type [any], by the dynamic types [slog.AnyValue] tells
    apart: strings, the signed and the unsigned integer types, booleans,
    durations, times, the floating-point types, slices of attributes,
    values of [slog], and everything else, [nil] among it. *)
Inductive any : Type :=
| a_string (s : string)
| a_int64 (i : Z)
| a_uint64 (u : Z)
| a_bool (b : bool)
| a_duration (d : Z)
| a_time (t : Time)
| a_float64 (bits : Z)
| a_attrs (l : list Attr)
| a_value (v : Value)
| a_other (x : Opaque).

Definition a_nil : any := a_other o_nil.

Definition any_is_nil (v : any) : bool :=
  match v with
  | a_other o_nil => true
  | _ => false
  end.

(** [v.isEmptyGroup()] *)
Definition isEmptyGroup (v : Value) : bool :=
  match v with
  | GroupValue [] => true
  | _ => false
  end.

(** [slog.GroupValue]: the attributes that are empty groups are
    removed when the group is built. *)
Definition slog_GroupValue (l : list Attr) : Value :=
  GroupValue (filter (fun a => negb (isEmptyGroup (Val a))) l).

(** [slog.AnyValue]: the kind is chosen by the dynamic type; a slice
    of attributes becomes a group, a [slog.Value] is taken as it is. *)
Definition slog_AnyValue (v : any) : Value :=
  match v with
  | a_string s => StringValue s
  | a_int64 i => Int64Value i
  | a_uint64 u => Uint64Value u
  | a_bool b => BoolValue b
  | a_duration d => DurationValue d
  | a_time t => TimeValue t
  | a_float64 bits => Float64Value bits
  | a_attrs l => slog_GroupValue l
  | a_value v => v
  | a_other x => AnyValue x
  end.

(** [slog.Any], [slog.String] and [slog.Time] *)
Definition slog_Any (key : string) (v : any) : Attr := (key, slog_AnyValue v).
Definition slog_String (key : string) (s : string) : Attr := (key, StringValue s).
Definition slog_Time (key : string) (t : Time) : Attr := (key, TimeValue t).

(** [slog.Record]: the exported fields and the attributes in the order
    they were added. *)
Record LogRecord : Type := mkRecord {
  rTime : Time;
  rLevel : Level;
  rMessage : string;
  rPC : Z;
  rAttrs : list Attr
}.

Definition NewRecord (t : Time) (level : Level) (msg : string) (pc : Z)
  : LogRecord :=
  mkRecord t level msg pc [].

(** [r.AddAttrs(l...)]: the attributes are appended, empty groups
    left out. *)
Definition AddAttrs (r : LogRecord) (l : list Attr) : LogRecord :=
  mkRecord (rTime r) (rLevel r) (rMessage r) (rPC r)
    (rAttrs r ++ filter (fun a => negb (isEmptyGroup (Val a))) l).

(** The records [slog] builds: no attribute is an empty group. *)
Definition Record_wf (r : LogRecord) : Prop :=
  forallb (fun a => negb (isEmptyGroup (Val a))) (rAttrs r) = true.

(** [slog.HandlerOptions]; a nil [Level] and a nil [ReplaceAttr] are
    [None]. *)
Record HandlerOptions : Type := mkOptions {
  AddSource : bool;
  OptLevel : option Level;
  ReplaceAttr : option (list string -> Attr -> Attr)
}.

(** [context.Context]: a chain of bindings, the newest first. *)
Definition ContextKey : Type := string.
Definition Context : Type := list (ContextKey * any).
Definition Background : Context := [].

Fixpoint ctx_Value (ctx : Context) (key : ContextKey) : any :=
  match ctx with
  | [] => a_nil
  | (k, v) :: parent => if String.eqb k key then v else ctx_Value parent key
  end.

Definition WithValue (ctx : Context) (key : ContextKey) (v : any) : Context :=
  (key, v) :: ctx.

(** [runtime.Frame], the fields the handler reads. *)
Record Frame : Type := mkFrame {
  File : string;
  Line : Z
}.

(** An [error]: [None] is [nil]. *)
Definition error : Type := option string.

(** The writers of the program, by reference: for each, the buffers
    passed to its [Write], oldest first. *)
Definition Store : Type := nat -> list string.

Definition recordWrite (st : Store) (w : nat) (buf : string) : Store :=
  fun w' => if Nat.eqb w' w then (st w ++ [buf])%list else st w'.

(** What the handler takes from the Go runtime and standard library
    without fixing it: formatting of times, durations and of values by
    the verb [%v], the frame of a program counter, the Unicode tables
    of printable runes, and the error a writer answers a [Write]
    with. *)
Class GoRuntime : Type := {
  timeFormat : string -> Time -> string;
  durationString : Z -> string;
  sprintValue : Value -> string;
  valueText : Value -> string;
  callersFrame : Z -> Frame;
  isPrintTable : Z -> bool;
  writeError : nat -> list string -> string -> error
}.

(** [v.String()]: a string value is itself, the other kinds are
    formatted. *)
Definition Value_String {rt : GoRuntime} (v : Value) : string :=
  match v with
  | StringValue s => s
  | _ => valueText v
  end.

(** [w.Write(buf)] on the writer [w]. *)
Definition Write {rt : GoRuntime} (w : nat) (buf : string) (st : Store)
  : Store * error :=
  (recordWrite st w buf, writeError w (st w) buf).

(** The verb [%d]. *)
Definition itoa (z : Z) : string :=
  DecimalString.NilZero.string_of_int (Z.to_int z).

End Slog.
Import Slog.

(** ** xlog: the handlers *)

(** The [slog.Handler] interface.  [Handle] and [WithAttrs] render
    attributes, which recurses through whatever the replacement hook
    returns; the first argument bounds the depth of that recursion,
    and [None] says the bound was reached. *)
Class Handler (H : Type) : Type := {
  hEnabled : H -> Context -> Level -> bool;
  hHandle : nat -> H -> Context -> LogRecord -> Store -> option (Store * error);
  hWithAttrs : nat -> H -> list Attr -> option H;
  hWithGroup : H -> string -> H
}.

(** ANSI colour codes. *)
Definition esc : string := chr 27.
Definition colorReset : string := esc ++ "[0m".
Definition colorRed : string := esc ++ "[31m".
Definition colorGreen : string := esc ++ "[32m".
Definition colorYellow : string := esc ++ "[33m".
Definition colorBlue : string := esc ++ "[34m".
Definition colorPurple : string := esc ++ "[35m".
Definition colorCyan : string := esc ++ "[36m".
Definition colorGray : string := esc ++ "[37m".
Definition colorBold : string := esc ++ "[1m".

(** [needsQuoting]: the loop ranges over the runes of [s]. *)
Definition isQuotingRune (r : Z) : bool :=
  (r =? 32) || (r =? 34) || (r =? 61) || (r =? 10) || (r =? 13) || (r =? 9).

Definition needsQuoting (s : string) : bool :=
  existsb isQuotingRune (Utf8.range s).

Definition formatValue {rt : GoRuntime} (v : Value) : string :=
  match v with
  | StringValue s =>
      if needsQuoting s then Strconv.Quote isPrintTable s else s
  | TimeValue t => timeFormat "2006-01-02T15:04:05.000Z07:00" t
  | DurationValue d => durationString d
  | _ => sprintValue v
  end.

Module ColorHandler.

Record t : Type := mk {
  opts : HandlerOptions;
  output : nat;
  mu : nat;
  attrs : list Attr;
  groups : list string;
  preformat : string
}.

(** [NewColorHandler]; [output] and [mu] are the references of the
    writer and of the freshly allocated mutex. *)
Definition NewColorHandler (output : nat) (o : option HandlerOptions)
  (mu : nat) : t :=
  let o := match o with
           | None => mkOptions false None None
           | Some o => o
           end in
  mk o output mu [] [] EmptyString.

Definition Enabled (h : t) (_ : Context) (level : Level) : bool :=
  let minLevel :=
    match OptLevel (opts h) with
    | Some l => l
    | None => LevelInfo
    end in
  minLevel <=? level.

Definition levelColor (level : Level) : string :=
  if LevelError <=? level then colorRed
  else if LevelWarn <=? level then colorYellow
  else if LevelInfo <=? level then colorGreen
  else colorBlue.

Definition levelString (level : Level) : string :=
  if LevelError <=? level then "ERR"
  else if LevelWarn <=? level then "WRN"
  else if LevelInfo <=? level then "INF"
  else "DBG".

(** The loop of [formatSource]:
    [for i := len(file) - 1; i > 0; i--], leaving [short] as it is
    when no index it visits holds a slash. *)
Fixpoint shortFrom (i : nat) (file short : string) : string :=
  match i with
  | O => short
  | S i' =>
      if byteAt file i =? 47 then drop (i + 1) file
      else shortFrom i' file short
  end.

Definition formatSource {rt : GoRuntime} (pc : Z) : string :=
  let frame := callersFrame pc in
  if negb (isEmpty (File frame)) then
    let short := shortFrom (String.length (File frame) - 1) (File frame)
                   (File frame) in
    short ++ ":" ++ itoa (Line frame)
  else EmptyString.

(** The key of [appendAttr]:
    [for _, g := range groups { key = g + "." + key }]. *)
Definition groupedKey (groups : list string) (key : string) : string :=
  fold_left (fun key g => g ++ "." ++ key) groups key.

(** The loop of [appendAttr] over the attributes of a group, [i]
    being the index of the head of [l]. *)
Fixpoint appendGroup (step : string -> Attr -> option string) (i : nat)
  (buf : string) (l : list Attr) : option string :=
  match l with
  | [] => Some buf
  | ga :: l' =>
      let buf := if (0 <? i)%nat || negb (isEmpty buf)
                 then buf ++ " " else buf in
      match step buf ga with
      | Some buf' => appendGroup step (S i) buf' l'
      | None => None
      end
  end.

Fixpoint appendAttr {rt : GoRuntime} (fuel : nat) (h : t) (buf : string)
  (a : Attr) (groups : list string) : option string :=
  match fuel with
  | O => None
  | S fuel' =>
      if isEmptyAttr a then Some buf
      else
        let a := match ReplaceAttr (opts h) with
                 | Some f => f groups a
                 | None => a
                 end in
        if match ReplaceAttr (opts h) with
           | Some _ => isEmptyAttr a
           | None => false
           end
        then Some buf
        else
          let key := groupedKey groups (Key a) in
          match Val a with
          | GroupValue groupAttrs =>
              match groupAttrs with
              | [] => Some buf
              | _ :: _ =>
                  let newGroups := (groups ++ [Key a])%list in
                  appendGroup
                    (fun buf ga => appendAttr fuel' h buf ga newGroups)
                    O buf groupAttrs
              end
          | v =>
              Some (buf ++ colorPurple ++ key ++ colorReset ++ "="
                        ++ formatValue v)
          end
  end.

(** The loop of [Handle] over the attributes of the record. *)
Fixpoint appendRecordAttrs {rt : GoRuntime} (fuel : nat) (h : t)
  (buf : string) (l : list Attr) : option string :=
  match l with
  | [] => Some buf
  | a :: l' =>
      match appendAttr fuel h (buf ++ " ") a (groups h) with
      | Some buf' => appendRecordAttrs fuel h buf' l'
      | None => None
      end
  end.

(** The line of [Handle] up to the record's attributes. *)
Definition lineHead {rt : GoRuntime} (h : t) (r : LogRecord) : string :=
  let buf := EmptyString in
  let buf :=
    if negb (Time_IsZero (rTime r)) then
      buf ++ colorGray
        ++ match ReplaceAttr (opts h) with
           | Some f => Value_String (Val (f [] (slog_Time TimeKey (rTime r))))
           | None => timeFormat "2006-01-02 15:04:05" (rTime r)
           end
        ++ colorReset ++ " "
    else buf in
  let buf := buf ++ levelColor (rLevel r) ++ levelString (rLevel r)
                 ++ colorReset ++ " " in
  let buf :=
    if AddSource (opts h) && negb (rPC r =? 0) then
      buf ++ colorCyan ++ formatSource (rPC r) ++ colorReset ++ " "
    else buf in
  let buf := buf ++ colorBold ++ rMessage r ++ colorReset in
  if negb (isEmpty (preformat h)) then buf ++ " " ++ preformat h else buf.

(** The bytes [Handle] builds for a record. *)
Definition formatLine {rt : GoRuntime} (fuel : nat) (h : t) (r : LogRecord)
  : option string :=
  match appendRecordAttrs fuel h (lineHead h r) (rAttrs r) with
  | Some buf => Some (buf ++ chr 10)
  | None => None
  end.

(** [Handle]: the line is built, then written once under the lock. *)
Definition Handle {rt : GoRuntime} (fuel : nat) (h : t) (_ : Context)
  (r : LogRecord) (st : Store) : option (Store * error) :=
  match formatLine fuel h r with
  | Some buf => Some (Write (output h) buf st)
  | None => None
  end.

(** The pre-formatting loop of [WithAttrs]. *)
Fixpoint preformatAttrs {rt : GoRuntime} (fuel : nat) (h : t) (buf : string)
  (l : list Attr) : option string :=
  match l with
  | [] => Some buf
  | a :: l' =>
      let buf := if negb (isEmpty buf) then buf ++ " " else buf in
      match appendAttr fuel h buf a (groups h) with
      | Some buf' => preformatAttrs fuel h buf' l'
      | None => None
      end
  end.

Definition WithAttrs {rt : GoRuntime} (fuel : nat) (h : t) (l : list Attr)
  : option t :=
  let newAttrs := (attrs h ++ l)%list in
  match preformatAttrs fuel h EmptyString l with
  | None => None
  | Some buf =>
      let preformat :=
        if negb (isEmpty buf) then
          (if negb (isEmpty (preformat h)) then preformat h ++ " "
           else preformat h) ++ buf
        else preformat h in
      Some (mk (opts h) (output h) (mu h) newAttrs (groups h) preformat)
  end.

Definition WithGroup (h : t) (name : string) : t :=
  if isEmpty name then h
  else
    let newGroups := (groups h ++ [name])%list in
    mk (opts h) (output h) (mu h) (attrs h) newGroups (preformat h).

End ColorHandler.

#[export] Instance ColorHandler_Handler {rt : GoRuntime}
  : Handler ColorHandler.t := {
  hEnabled := ColorHandler.Enabled;
  hHandle := ColorHandler.Handle;
  hWithAttrs := ColorHandler.WithAttrs;
  hWithGroup := ColorHandler.WithGroup
}.

(** Predefined context keys. *)
Definition TraceIDKey : ContextKey := "trace_id".
Definition UserIDKey : ContextKey := "user_id".
Definition RequestIDKey : ContextKey := "request_id".
Definition SessionIDKey : ContextKey := "session_id".
Definition SpanIDKey : ContextKey := "span_id".

Module ContextHandler.

Section Wrapped.
Context {H : Type} {inner : Handler H}.

Record t : Type := mk {
  handler : H;
  keys : list ContextKey
}.

Definition NewContextHandler (handler : H) (keys : list ContextKey) : t :=
  mk handler keys.

Definition Enabled (h : t) (ctx : Context) (level : Level) : bool :=
  hEnabled (handler h) ctx level.

(** The first loop of [Handle]: the attributes found in the context. *)
Definition extract (keys : list ContextKey) (ctx : Context) : list Attr :=
  fold_left
    (fun attrs key =>
       let v := ctx_Value ctx key in
       if negb (any_is_nil v) then (attrs ++ [slog_Any key v])%list
       else attrs)
    keys [].

(** The record [Handle] hands to the wrapped handler. *)
Definition inject (h : t) (ctx : Context) (r : LogRecord) : LogRecord :=
  let attrs := extract (keys h) ctx in
  if (0 <? List.length attrs)%nat then
    let r2 := NewRecord (rTime r) (rLevel r) (rMessage r) (rPC r) in
    let r2 := AddAttrs r2 attrs in
    fold_left (fun r2 a => AddAttrs r2 [a]) (rAttrs r) r2
  else r.

Definition Handle (fuel : nat) (h : t) (ctx : Context) (r : LogRecord)
  (st : Store) : option (Store * error) :=
  hHandle fuel (handler h) ctx (inject h ctx r) st.

Definition WithAttrs (fuel : nat) (h : t) (l : list Attr) : option t :=
  match hWithAttrs fuel (handler h) l with
  | Some inner' => Some (mk inner' (keys h))
  | None => None
  end.

Definition WithGroup (h : t) (name : string) : t :=
  mk (hWithGroup (handler h) name) (keys h).

End Wrapped.
Arguments t H : clear implicits.

End ContextHandler.

#[export] Instance ContextHandler_Handler {H : Type} {inner : Handler H}
  : Handler (ContextHandler.t H) := {
  hEnabled := ContextHandler.Enabled;
  hHandle := ContextHandler.Handle;
  hWithAttrs := ContextHandler.WithAttrs;
  hWithGroup := ContextHandler.WithGroup
}.

(** [WithContext], [WithTraceID], [WithUserID], [WithRequestID] *)
Definition WithContext (ctx : Context) (key : ContextKey) (value : any)
  : Context := WithValue ctx key value.
Definition WithTraceID (ctx : Context) (traceID : string) : Context :=
  WithValue ctx TraceIDKey (a_string traceID).
Definition WithUserID (ctx : Context) (userID : string) : Context :=
  WithValue ctx UserIDKey (a_string userID).
Definition WithRequestID (ctx : Context) (requestID : string) : Context :=
  WithValue ctx RequestIDKey (a_string requestID).

(** ** xlog: configuration and logging entry points *)

Inductive Environment : Type :=
| Development
| Production.

Record config : Type := mkConfig {
  env : Environment;
  level : Level;
  cfgOutput : nat;
  addSource : bool;
  cfgTimeFormat : string;
  contextKeys : list ContextKey
}.

Definition Option : Type := config -> config.

Definition WithEnvironment (e : Environment) : Option :=
  fun c => mkConfig e (level c) (cfgOutput c) (addSource c) (cfgTimeFormat c)
             (contextKeys c).
Definition WithLevel (l : Level) : Option :=
  fun c => mkConfig (env c) l (cfgOutput c) (addSource c) (cfgTimeFormat c)
             (contextKeys c).
Definition WithOutput (w : nat) : Option :=
  fun c => mkConfig (env c) (level c) w (addSource c) (cfgTimeFormat c)
             (contextKeys c).
Definition WithSource (enabled : bool) : Option :=
  fun c => mkConfig (env c) (level c) (cfgOutput c) enabled (cfgTimeFormat c)
             (contextKeys c).
Definition WithTimeFormat (format : string) : Option :=
  fun c => mkConfig (env c) (level c) (cfgOutput c) (addSource c) format
             (contextKeys c).
Definition WithContextKeys (keys : list ContextKey) : Option :=
  fun c => mkConfig (env c) (level c) (cfgOutput c) (addSource c)
             (cfgTimeFormat c) (contextKeys c ++ keys).

(** The configuration [Init] starts from; [stdout] is the reference of
    [os.Stdout]. *)
Definition defaultConfig (stdout : nat) : config :=
  mkConfig Development LevelInfo stdout true "2006-01-02T15:04:05Z07:00"
    [TraceIDKey; UserIDKey; RequestIDKey].

(** The [ReplaceAttr] hook [Init] installs. *)
Definition initReplaceAttr {rt : GoRuntime} (cfg : config)
  (_ : list string) (a : Attr) : Attr :=
  if String.eqb (Key a) TimeKey
     && match env cfg with Development => true | Production => false end
  then
    match Val a with
    | TimeValue t => slog_String TimeKey (timeFormat (cfgTimeFormat cfg) t)
    | _ => a
    end
  else a.

Definition initOptions {rt : GoRuntime} (cfg : config) : HandlerOptions :=
  mkOptions (addSource cfg) (Some (level cfg)) (Some (initReplaceAttr cfg)).

(** The handler chain [Init] builds in the development environment
    (the production one ends in [slog]'s JSON handler). *)
Definition initHandler {rt : GoRuntime} (stdout mu : nat) (opts : list Option)
  : ContextHandler.t ColorHandler.t :=
  let cfg := fold_left (fun c opt => opt c) opts (defaultConfig stdout) in
  ContextHandler.NewContextHandler
    (ColorHandler.NewColorHandler (cfgOutput cfg) (Some (initOptions cfg)) mu)
    (contextKeys cfg).

Section Logger.
Context {H : Type} {HH : Handler H}.

(** [slog.Logger] and the [Logger] of the package that embeds it. *)
Record SlogLogger : Type := mkSlogLogger {
  lHandler : H
}.

Record Logger : Type := mkLogger {
  embedded : SlogLogger;
  handler : H
}.

(** [logWithCaller]; [now] and [pc] are what [time.Now] and
    [runtime.Callers] answer, and [args] are the attributes [r.Add]
    makes of the arguments.  The function has no result: only the
    store it leaves is returned. *)
Definition logWithCaller (fuel : nat) (ctx : Context) (logger : SlogLogger)
  (level : Level) (msg : string) (args : list Attr) (now : Time) (pc : Z)
  (st : Store) : option Store :=
  if negb (hEnabled (lHandler logger) ctx level) then Some st
  else
    let r := NewRecord now level msg pc in
    let r := AddAttrs r args in
    match hHandle fuel (lHandler logger) ctx r st with
    | Some (st', _) => Some st'
    | None => None
    end.

(** The program state the free functions read: the default logger,
    and the writers. *)
Record World : Type := mkWorld {
  defaultLogger : Logger;
  store : Store
}.

Definition Default (w : World) : Logger := defaultLogger w.




End Logger.
Arguments SlogLogger H : clear implicits.
Arguments Logger H : clear implicits.
Arguments World H : clear implicits.

(** [Init]'s logger for the development environment. *)
Definition initLogger {rt : GoRuntime} (stdout mu : nat) (opts : list Option)
  : Logger (ContextHandler.t ColorHandler.t) :=
  let h := initHandler stdout mu opts in
  mkLogger (mkSlogLogger h) h.

(** ** The specification's wording, for comparison with the code *)

(** The attributes the context contributes, as the specification
    words it: the recognized keys whose value is present, in their
    order, each with its looked-up value. *)
Definition contextAttrs (keys : list ContextKey) (ctx : Context) : list Attr :=
  map (fun key => slog_Any key (ctx_Value ctx key))
    (filter (fun key => negb (any_is_nil (ctx_Value ctx key))) keys).

(** The record the wrapped handler is to receive, as the specification
    words it. *)
Definition augmented (keys : list ContextKey) (ctx : Context) (r : LogRecord)
  : LogRecord :=
  match contextAttrs keys ctx with
  | [] => r
  | found =>
      mkRecord (rTime r) (rLevel r) (rMessage r) (rPC r) (found ++ rAttrs r)
  end.

(** The attributes the context contributes, as the amended wording
    has it: those of [contextAttrs] whose value is not a group without
    attributes. *)
Definition presentAttrs (keys : list ContextKey) (ctx : Context) : list Attr :=
  filter (fun a => negb (isEmptyGroup (Val a))) (contextAttrs keys ctx).

(** The record the wrapped handler is to receive, as the amended
    wording has it. *)
Definition augmentedPresent (keys : list ContextKey) (ctx : Context)
  (r : LogRecord) : LogRecord :=
  match presentAttrs keys ctx with
  | [] => r
  | found =>
      mkRecord (rTime r) (rLevel r) (rMessage r) (rPC r) (found ++ rAttrs r)
  end.

(** The six bytes [needsQuoting] looks for: space, double quote, the
    equals sign, newline, carriage return and tab. *)
Definition quotingBytes : list Z := [32; 34; 61; 10; 13; 9].

(** The string holds one of them. *)
Definition holdsQuotingByte (s : string) : bool :=
  existsb (fun b => existsb (Z.eqb b) quotingBytes) (bytes s).

(** Reading [s] from the left, a backslash taking the byte after it
    along: no double quote and no control byte is met on its own. *)
Fixpoint escapedOnly (s : string) : bool :=
  match s with
  | EmptyString => true
  | String c t =>
      let b := byteZ c in
      if b =? 92 then
        match t with
        | EmptyString => false
        | String _ t' => escapedOnly t'
        end
      else if (b =? 34) || (b <? 32) || (b =? 127) then false
      else escapedOnly t
  end.

(** ** Notions the statements use *)

(** A replacement hook that never returns an attribute nested deeper
    than the one it was given; with such a hook, or none, rendering an
    attribute ends. *)
Definition hook_shrinks (o : HandlerOptions) : Prop :=
  match ReplaceAttr o with
  | Some f => forall groups a, (Attr_depth (f groups a) <= Attr_depth a)%nat
  | None => True
  end.


(** The minimum level of a colour handler. *)
Definition minLevel (h : ColorHandler.t) : Level :=
  match OptLevel (ColorHandler.opts h) with
  | Some l => l
  | None => LevelInfo
  end.

(** [v.Kind() == slog.KindGroup] *)
Definition isGroup (v : Value) : bool :=
  match v with
  | GroupValue _ => true
  | _ => false
  end.

(** The attribute a handler renders for [a]: what the hook makes of
    it under the handler's groups, or [a] itself without a hook. *)
Definition replaced (h : ColorHandler.t) (a : Attr) : Attr :=
  match ReplaceAttr (ColorHandler.opts h) with
  | Some f => f (ColorHandler.groups h) a
  | None => a
  end.

(** An attribute that a handler renders as one [key=value] pair: it
    is not the empty attribute, the hook does not suppress it, and
    what is rendered is not a group. *)
Definition plainAttr (h : ColorHandler.t) (a : Attr) : bool :=
  negb (isEmptyAttr a)
  && match ReplaceAttr (ColorHandler.opts h) with
     | Some _ => negb (isEmptyAttr (replaced h a))
     | None => true
     end
  && negb (isGroup (Val (replaced h a))).

(** The pair such an attribute is rendered as. *)
Definition plainText {rt : GoRuntime} (h : ColorHandler.t) (a : Attr)
  : string :=
  colorPurple
    ++ ColorHandler.groupedKey (ColorHandler.groups h) (Key (replaced h a))
    ++ colorReset ++ "=" ++ formatValue (Val (replaced h a)).

(** When binding [A] and then [B] is compared with binding them at
    once: [B] is empty or starts with an attribute rendered as one
    pair. *)
Definition headPlain (h : ColorHandler.t) (B : list Attr) : bool :=
  match B with
  | [] => true
  | b :: _ => plainAttr h b
  end.

(** Binding [A], then [B]. *)
Definition bindTwice {rt : GoRuntime} (fuel : nat) (h : ColorHandler.t)
  (A B : list Attr) : option ColorHandler.t :=
  match ColorHandler.WithAttrs fuel h A with
  | Some h1 => ColorHandler.WithAttrs fuel h1 B
  | None => None
  end.

(** The cases of [utf8.DecodeRuneInString] on a string that is not
    empty: a byte below [0x80]; a byte that begins no well-formed
    sequence, decoded as [RuneError] of width 1; and the well-formed
    sequences of two, three and four bytes. *)
Inductive Decoded : string -> Z -> nat -> Prop :=
| dec_ascii c t :
    byteZ c < 0x80 -> Decoded (String c t) (byteZ c) 1
| dec_invalid c t :
    0x80 <= byteZ c -> Decoded (String c t) Utf8.RuneError 1
| dec_two c0 c1 t :
    0xC2 <= byteZ c0 < 0xE0 -> 0x80 <= byteZ c1 <= 0xBF ->
    Decoded (String c0 (String c1 t))
      ((byteZ c0 mod 32) * 64 + byteZ c1 mod 64) 2
| dec_three c0 c1 c2 t :
    0xE0 <= byteZ c0 < 0xF0 -> 0x80 <= byteZ c1 <= 0xBF ->
    (byteZ c0 = 0xE0 -> 0xA0 <= byteZ c1) ->
    (byteZ c0 = 0xED -> byteZ c1 <= 0x9F) ->
    0x80 <= byteZ c2 <= 0xBF ->
    Decoded (String c0 (String c1 (String c2 t)))
      ((byteZ c0 mod 16) * 4096 + (byteZ c1 mod 64) * 64 + byteZ c2 mod 64) 3
| dec_four c0 c1 c2 c3 t :
    0xF0 <= byteZ c0 <= 0xF4 -> 0x80 <= byteZ c1 <= 0xBF ->
    (byteZ c0 = 0xF0 -> 0x90 <= byteZ c1) ->
    (byteZ c0 = 0xF4 -> byteZ c1 <= 0x8F) ->
    0x80 <= byteZ c2 <= 0xBF -> 0x80 <= byteZ c3 <= 0xBF ->
    Decoded (String c0 (String c1 (String c2 (String c3 t))))
      ((byteZ c0 mod 8) * 262144 + (byteZ c1 mod 64) * 4096
       + (byteZ c2 mod 64) * 64 + byteZ c3 mod 64) 4.

(** ** Sample instances, for evaluating the model on concrete inputs *)

(** A runtime whose writers never fail.  Formatting the reference time
    gives back the layout; program counter 1 is line 10 of
    [/main.go], program counter 2 line 42 of [/app/cmd/server.go]. *)
Definition sampleRuntime : GoRuntime := {|
  timeFormat := fun layout _ => layout;
  durationString := fun d => itoa d ++ "ns";
  sprintValue := fun v =>
    match v with
    | Int64Value i => itoa i
    | Uint64Value u => itoa u
    | BoolValue true => "true"
    | BoolValue false => "false"
    | _ => "<nil>"
    end;
  valueText := fun _ => "2006-01-02T15:04:05.000Z";
  callersFrame := fun pc =>
    if pc =? 1 then mkFrame "/main.go" 10
    else if pc =? 2 then mkFrame "/app/cmd/server.go" 42
    else mkFrame EmptyString 0;
  isPrintTable := fun _ => true;
  writeError := fun _ _ _ => None
|}.


Definition emptyStore : Store := fun _ => [].

(** A colour handler on writer 0 with mutex 0, no options set. *)
Definition plainHandler : ColorHandler.t :=
  ColorHandler.NewColorHandler 0 None 0.

(** The newline byte, as a string. *)
Definition nl : string := chr 10.

(** A record with two attributes of its own, for evaluating the context
    handler. *)
Definition sampleRecord : LogRecord :=
  mkRecord 5 LevelInfo "request served" 2
    [("status", Int64Value 200); ("path", StringValue "/v1/items")].

Definition sampleContext : Context :=
  WithUserID (WithTraceID Background "trace-123") "user-456".

(** A context whose trace identifier is an empty slice of
    attributes. *)
Definition groupContext : Context :=
  WithUserID (WithContext Background TraceIDKey (a_attrs [])) "user-456".

(** A logger over the development chain with no options set, on
    writer 0. *)
Definition sampleLogger : Logger (ContextHandler.t ColorHandler.t) :=
  let h := ContextHandler.mk plainHandler
             [TraceIDKey; UserIDKey; RequestIDKey] in
  mkLogger (mkSlogLogger h) h.

(** The development chain over the two sample runtimes. *)
Definition sampleChain : Handler (ContextHandler.t ColorHandler.t) :=
  ContextHandler_Handler (inner := ColorHandler_Handler (rt := sampleRuntime)).


(** ** xlog: derived loggers and the standard-log adapter *)

Section Derived.
Context {H : Type} {HH : Handler H}.

(** [slog.Logger.With]: with no arguments the logger itself, else a
    copy whose handler has the attributes bound; [args] are the
    attributes the arguments convert to. *)
Definition SlogLogger_With (fuel : nat) (l : SlogLogger H) (args : list Attr)
  : option (SlogLogger H) :=
  match args with
  | [] => Some l
  | _ :: _ =>
      match hWithAttrs fuel (lHandler l) args with
      | Some h => Some (mkSlogLogger h)
      | None => None
      end
  end.

(** [slog.Logger.WithGroup]: with the empty name the logger itself. *)
Definition SlogLogger_WithGroup (l : SlogLogger H) (name : string)
  : SlogLogger H :=
  if isEmpty name then l
  else mkSlogLogger (hWithGroup (lHandler l) name).

(** The methods [With] and [WithGroup] of [Logger]: the embedded
    logger is rebound, the [handler] field is copied as it is. *)
Definition Logger_With (fuel : nat) (l : Logger H) (args : list Attr)
  : option (Logger H) :=
  match SlogLogger_With fuel (embedded l) args with
  | Some e => Some (mkLogger e (handler l))
  | None => None
  end.

Definition Logger_WithGroup (l : Logger H) (name : string) : Logger H :=
  mkLogger (SlogLogger_WithGroup (embedded l) name) (handler l).

(** The free functions [With] and [WithGroup], on the default
    logger. *)
Definition With (fuel : nat) (args : list Attr) (w : World H)
  : option (Logger H) :=
  Logger_With fuel (Default w) args.

Definition WithGroup (name : string) (w : World H) : Logger H :=
  Logger_WithGroup (Default w) name.

(** [slogWriter], the [io.Writer] the standard [log] package is
    redirected to. *)
Record slogWriter : Type := mkSlogWriter {
  swLogger : SlogLogger H
}.

(** The message [Write] logs: [p] without its last byte when that is
    a newline. *)
Definition trimNewline (p : string) : string :=
  if (0 <? String.length p)%nat
     && (byteAt p (String.length p - 1) =? 10)
  then take (String.length p - 1) p
  else p.

(** [slogWriter.Write]: the message is logged by [slog.Logger.Info],
    which checks the level, builds a record for the background
    context and drops the error of the handler; the result is
    [len(p), nil].  [now] and [pc] are what [time.Now] and
    [runtime.Callers] answer inside [Info]. *)
Definition slogWriter_Write (fuel : nat) (w : slogWriter) (p : string)
  (now : Time) (pc : Z) (st : Store) : option (Store * (Z * error)) :=
  let msg := trimNewline p in
  match logWithCaller fuel Background (swLogger w) LevelInfo msg [] now pc st
  with
  | Some st' => Some (st', (Z.of_nat (String.length p), None))
  | None => None
  end.

(** One logging call: level, message, attributes, and what the clock
    and the stack answered. *)
Record call : Type := mkCall {
  cLevel : Level;
  cMsg : string;
  cArgs : list Attr;
  cNow : Time;
  cPC : Z
}.

(** Logging calls made one after the other on the same logger. *)
Fixpoint logAll (fuel : nat) (ctx : Context) (logger : SlogLogger H)
  (calls : list call) (st : Store) : option Store :=
  match calls with
  | [] => Some st
  | c :: calls' =>
      match logWithCaller fuel ctx logger (cLevel c) (cMsg c) (cArgs c)
              (cNow c) (cPC c) st with
      | Some st' => logAll fuel ctx logger calls' st'
      | None => None
      end
  end.

End Derived.
Arguments slogWriter H : clear implicits.

(** The configuration [Init] arrives at: the options applied in order
    to the defaults. *)
Definition initConfig (stdout : nat) (opts : list Option) : config :=
  fold_left (fun c opt => opt c) opts (defaultConfig stdout).

(** [n] spaces. *)
Fixpoint spaces (n : nat) : string :=
  match n with
  | O => EmptyString
  | S n' => " " ++ spaces n'
  end.

(** The text of one rendered pair, for the key as it stands under the
    groups. *)
Definition pairText {rt : GoRuntime} (groups : list string) (a : Attr)
  : string :=
  colorPurple ++ ColorHandler.groupedKey groups (Key a) ++ colorReset
    ++ "=" ++ formatValue (Val a).

(** An attribute that is neither empty nor a group. *)
Definition scalarAttr (a : Attr) : bool :=
  negb (isEmptyAttr a) && negb (isGroup (Val a)).

(** A hook that answers every attribute with a group in which at
    least one attribute is not the empty attribute. *)
Definition hook_nests (f : list string -> Attr -> Attr) : Prop :=
  forall groups a,
    exists l, Val (f groups a) = GroupValue l
              /\ existsb (fun x => negb (isEmptyAttr x)) l = true.

(** A hook that wraps whatever it is given in a group. *)
Definition wrappingHook (_ : list string) (a : Attr) : Attr :=
  ("wrapped", GroupValue [("inner", Int64Value 1)]).

(** The calls of a list that a handler with this minimum level
    handles. *)
Definition enabledCalls (minimum : Level) (calls : list call) : list call :=
  filter (fun c => minimum <=? cLevel c) calls.

(** The last slash of [file] is at index [i], past the first byte. *)
Definition lastSlashAt (file : string) (i : nat) : bool :=
  (1 <=? i)%nat && (i <? String.length file)%nat
  && (byteAt file i =? 47)
  && forallb (fun j => negb (byteAt file j =? 47))
       (seq (S i) (String.length file - S i)).

(** A colour handler whose hook wraps every attribute. *)
Definition wrappingHandler : ColorHandler.t :=
  ColorHandler.NewColorHandler 0
    (Some (mkOptions false None (Some wrappingHook))) 0.


(** No byte of the path after the first is a slash. *)
Definition noLaterSlash (file : string) : bool :=
  forallb (fun j => negb (byteAt file j =? 47))
    (seq 1 (String.length file - 1)).

(** No byte of the string is below [0x20]. *)
Definition noControlByte (s : string) : bool :=
  forallb (fun x => 32 <=? x) (bytes s).

(** * Properties *)

(** ** Strings *)

Lemma append_nil_r (s : string) : s ++ EmptyString = s.
Proof. induction s as [|c s IH]; simpl; [reflexivity | now rewrite IH]. Qed.

Lemma append_assoc (a b c : string) : (a ++ b) ++ c = a ++ (b ++ c).
Proof. induction a as [|x a IH]; simpl; [reflexivity | now rewrite IH]. Qed.

Lemma isEmpty_true (s : string) : isEmpty s = true <-> s = EmptyString.
Proof. destruct s; simpl; split; intros E; congruence. Qed.

Lemma isEmpty_false (s : string) : isEmpty s = false <-> s <> EmptyString.
Proof. destruct s; simpl; split; intros E; congruence. Qed.

Lemma isEmpty_append (a b : string) :
  isEmpty (a ++ b) = isEmpty a && isEmpty b.
Proof. destruct a; reflexivity. Qed.

Lemma length_append (a b : string) :
  String.length (a ++ b) = (String.length a + String.length b)%nat.
Proof. induction a as [|x a IH]; simpl; [reflexivity | now rewrite IH]. Qed.


Lemma endsWithByte_append_chr (x : Z) (a : string) :
  0 <= x < 256 -> endsWithByte x (a ++ chr x) = true.
Proof.
  intros Hx. induction a as [|c a IH].
  - simpl. unfold byteZ, zbyte.
    rewrite N_ascii_embedding.
    + rewrite Z.mod_small by lia. rewrite Z2N.id by lia. apply Z.eqb_refl.
    + rewrite Z.mod_small by lia. lia.
  - change (String c a ++ chr x) with (String c (a ++ chr x)).
    simpl. destruct (a ++ chr x) eqn:E; [|exact IH].
    destruct a; discriminate E.
Qed.

Section Formatting.
Context {rt : GoRuntime}.

(** ** C5: the level badge *)

(** C5.  The badge of a level is [ERR] in red exactly from the error
    threshold up, [WRN] in yellow exactly from the warn threshold up
    to it, [INF] in green exactly from the info threshold up to the
    warn one, and [DBG] in blue exactly below the info threshold,
    whatever the level, named or not. *)
Theorem level_badge_by_threshold (level : Level) :
  let badge := (ColorHandler.levelString level, ColorHandler.levelColor level) in
  (badge = ("ERR", colorRed) <-> LevelError <= level) /\
  (badge = ("WRN", colorYellow) <-> LevelWarn <= level < LevelError) /\
  (badge = ("INF", colorGreen) <-> LevelInfo <= level < LevelWarn) /\
  (badge = ("DBG", colorBlue) <-> level < LevelInfo).
Proof.
  unfold ColorHandler.levelString, ColorHandler.levelColor,
    LevelError, LevelWarn, LevelInfo.
  cbv zeta.
  destruct (Z.leb_spec 8 level); [|destruct (Z.leb_spec 4 level);
    [|destruct (Z.leb_spec 0 level)]];
  repeat match goal with
         | |- _ /\ _ => split
         | |- _ <-> _ => split
         end;
  intros E; try lia; try reflexivity;
  apply (f_equal fst) in E; simpl in E; discriminate E.
Qed.

(** ** C10: binding a group name *)

(** C10.  Binding the empty name gives back the handler it was bound
    on; binding a non-empty name gives a handler that differs from it
    in the group path alone, which has the name appended: options,
    writer and mutex references, bound attributes and pre-rendered
    text are the receiver's. *)
Theorem WithGroup_empty_is_identity_else_appends (h : ColorHandler.t)
  (c : ascii) (s : string) :
  ColorHandler.WithGroup h EmptyString = h /\
  ColorHandler.WithGroup h (String c s) =
    ColorHandler.mk (ColorHandler.opts h) (ColorHandler.output h)
      (ColorHandler.mu h) (ColorHandler.attrs h)
      (ColorHandler.groups h ++ [String c s]) (ColorHandler.preformat h) /\
  ColorHandler.output (ColorHandler.WithGroup h (String c s)) =
    ColorHandler.output h /\
  ColorHandler.mu (ColorHandler.WithGroup h (String c s)) =
    ColorHandler.mu h.
Proof. repeat split. Qed.

(** ** C1: keys under a group path *)

(** The key loop puts each group in front of what it has built so
    far, so the path comes out innermost first. *)
Lemma groupedKey_rev (groups : list string) (key : string) :
  ColorHandler.groupedKey groups key =
  String.concat "." (rev groups ++ [key]).
Proof.
  unfold ColorHandler.groupedKey.
  revert key. induction groups as [|g groups IH]; intros key; simpl.
  - reflexivity.
  - rewrite IH. rewrite <- !app_assoc. simpl.
    generalize (rev groups). intros l.
    induction l as [|x l IHl]; simpl.
    + reflexivity.
    + destruct l as [|y l]; simpl in *.
      * reflexivity.
      * now rewrite IHl.
Qed.

(** C1.  Under the group path [a], [b] the key [k] is rendered as
    [b.a.k], not [a.b.k]: both when the path comes from two group
    bindings and when it comes from two nested group attributes. *)
Theorem key_under_two_groups_is_reversed :
  let h := ColorHandler.WithGroup (ColorHandler.WithGroup plainHandler "a") "b" in
  ColorHandler.groups h = ["a"; "b"] /\
  ColorHandler.appendAttr 1 h EmptyString ("k", StringValue "v")
    (ColorHandler.groups h)
  = Some (colorPurple ++ "b.a.k" ++ colorReset ++ "=v") /\
  ColorHandler.appendAttr 3 plainHandler EmptyString
    ("a", GroupValue [("b", GroupValue [("k", StringValue "v")])]) []
  = Some (colorPurple ++ "b.a.k" ++ colorReset ++ "=v").
Proof. repeat split. Qed.

(** ** C7: the call site *)

(** The loop of [formatSource] never reads the first byte of the path:
    a path with no slash after its first byte is kept whole, whatever
    that byte is. *)
Lemma shortFrom_no_later_slash (n : nat) (file short : string) :
  (forall i, (1 <= i <= n)%nat -> byteAt file i <> 47) ->
  ColorHandler.shortFrom n file short = short.
Proof.
  induction n as [|n IH]; intros Hno; simpl; [reflexivity|].
  destruct (Z.eqb_spec (byteAt file (S n)) 47) as [E|_].
  - exfalso. apply (Hno (S n)); [lia | exact E].
  - apply IH. intros i Hi. apply Hno. lia.
Qed.

(** With a slash at an index past the first and none after it, the
    loop keeps what follows that slash. *)
Lemma shortFrom_last_slash (n i : nat) (file short : string) :
  (1 <= i <= n)%nat -> byteAt file i = 47 ->
  (forall j, (i < j <= n)%nat -> byteAt file j <> 47) ->
  ColorHandler.shortFrom n file short = drop (i + 1) file.
Proof.
  induction n as [|n IH]; intros Hi E Hno; [lia|]. simpl.
  destruct (Nat.eq_dec i (S n)) as [->|Hne].
  - rewrite E. reflexivity.
  - destruct (Z.eqb_spec (byteAt file (S n)) 47) as [E'|_].
    + exfalso. apply (Hno (S n)); [lia | exact E'].
    + apply IH; [lia | exact E |]. intros j Hj. apply Hno. lia.
Qed.

(** C7.  For a frame whose file is [/main.go], the only slash being
    the first byte, the call site is rendered with the whole path,
    [/main.go:10]; with a slash further on only the last segment is
    kept, [server.go:42]. *)
Theorem formatSource_keeps_leading_slash :
  ColorHandler.formatSource (rt := sampleRuntime) 1 = "/main.go:10" /\
  ColorHandler.formatSource (rt := sampleRuntime) 2 = "server.go:42".
Proof. split; reflexivity. Qed.

End Formatting.

(** ** C4: context injection *)

Section ContextInjection.
Context {H : Type} {inner : Handler H}.

Lemma extract_from (keys : list ContextKey) (ctx : Context) (acc : list Attr) :
  fold_left
    (fun attrs key =>
       let v := ctx_Value ctx key in
       if negb (any_is_nil v) then (attrs ++ [slog_Any key v])%list
       else attrs)
    keys acc
  = (acc ++ contextAttrs keys ctx)%list.
Proof.
  unfold contextAttrs.
  revert acc. induction keys as [|key keys IH]; intros acc; simpl.
  - now rewrite app_nil_r.
  - rewrite IH. destruct (any_is_nil (ctx_Value ctx key)); simpl.
    + reflexivity.
    + now rewrite <- app_assoc.
Qed.

Lemma extract_is_contextAttrs (keys : list ContextKey) (ctx : Context) :
  ContextHandler.extract keys ctx = contextAttrs keys ctx.
Proof. unfold ContextHandler.extract. now rewrite extract_from. Qed.

Lemma clone_attrs (l : list Attr) (r2 : LogRecord) :
  forallb (fun a => negb (isEmptyGroup (Val a))) l = true ->
  fold_left (fun r2 a => AddAttrs r2 [a]) l r2
  = mkRecord (rTime r2) (rLevel r2) (rMessage r2) (rPC r2) (rAttrs r2 ++ l).
Proof.
  revert r2. induction l as [|a l IH]; intros r2 Hl; simpl.
  - rewrite app_nil_r. now destruct r2.
  - simpl in Hl. apply andb_true_iff in Hl. destruct Hl as [Ha Hl].
    rewrite IH by exact Hl. unfold AddAttrs. simpl. rewrite Ha. simpl.
    now rewrite <- app_assoc.
Qed.

(** The record handed on, field by field: [AddAttrs] leaves out the
    context attributes that are groups without attributes. *)
Lemma inject_attrs (h : ContextHandler.t H) (ctx : Context) (r : LogRecord) :
  Record_wf r ->
  ContextHandler.inject h ctx r
  = mkRecord (rTime r) (rLevel r) (rMessage r) (rPC r)
      (presentAttrs (ContextHandler.keys h) ctx ++ rAttrs r).
Proof.
  intros Hwf. unfold ContextHandler.inject, presentAttrs.
  rewrite extract_is_contextAttrs.
  destruct (contextAttrs (ContextHandler.keys h) ctx) as [|a found] eqn:E.
  - now destruct r.
  - cbn [List.length Nat.ltb Nat.leb].
    rewrite clone_attrs by exact Hwf.
    unfold AddAttrs, NewRecord. cbn [rTime rLevel rMessage rPC rAttrs].
    reflexivity.
Qed.

Lemma inject_augmentedPresent (h : ContextHandler.t H) (ctx : Context)
  (r : LogRecord) :
  Record_wf r ->
  ContextHandler.inject h ctx r
  = augmentedPresent (ContextHandler.keys h) ctx r.
Proof.
  intros Hwf. rewrite inject_attrs by exact Hwf. unfold augmentedPresent.
  destruct (presentAttrs (ContextHandler.keys h) ctx); [now destruct r|].
  reflexivity.
Qed.

Lemma presentAttrs_all (keys : list ContextKey) (ctx : Context) :
  forallb (fun a => negb (isEmptyGroup (Val a))) (contextAttrs keys ctx) = true ->
  presentAttrs keys ctx = contextAttrs keys ctx.
Proof.
  unfold presentAttrs.
  induction (contextAttrs keys ctx) as [|a l IH]; intros Hl; [reflexivity|].
  cbn [forallb] in Hl. apply andb_true_iff in Hl. destruct Hl as [Ha Hl].
  cbn [filter]. rewrite Ha, IH by exact Hl. reflexivity.
Qed.

Lemma inject_augmented (h : ContextHandler.t H) (ctx : Context)
  (r : LogRecord) :
  Record_wf r ->
  forallb (fun a => negb (isEmptyGroup (Val a)))
    (contextAttrs (ContextHandler.keys h) ctx) = true ->
  ContextHandler.inject h ctx r = augmented (ContextHandler.keys h) ctx r.
Proof.
  intros Hwf Hall. rewrite inject_augmentedPresent by exact Hwf.
  unfold augmentedPresent, augmented. now rewrite presentAttrs_all.
Qed.

(** C4, amended.  The context handler hands the wrapped handler the
    record of the amended wording: the attributes of the recognized
    keys whose context value is not nil and does not convert to a
    group without attributes, in key order and with the looked-up
    value as [slog.Any] takes it, ahead of the record's own attributes
    in their order; and the record itself when there is none.  When
    no value found converts to a group without attributes, this is
    the record the specification describes. *)
Theorem context_attributes_are_prepended (fuel : nat)
  (h : ContextHandler.t H) (ctx : Context) (r : LogRecord) (st : Store) :
  Record_wf r ->
  ContextHandler.Handle fuel h ctx r st
  = hHandle fuel (ContextHandler.handler h) ctx
      (augmentedPresent (ContextHandler.keys h) ctx r) st /\
  (forallb (fun a => negb (isEmptyGroup (Val a)))
     (contextAttrs (ContextHandler.keys h) ctx) = true ->
   ContextHandler.Handle fuel h ctx r st
   = hHandle fuel (ContextHandler.handler h) ctx
       (augmented (ContextHandler.keys h) ctx r) st).
Proof.
  intros Hwf. unfold ContextHandler.Handle. split.
  - now rewrite inject_augmentedPresent.
  - intros Hall. now rewrite inject_augmented.
Qed.

End ContextInjection.

Lemma context_attributes_are_prepended_witness :
  Record_wf sampleRecord /\
  forallb (fun a => negb (isEmptyGroup (Val a)))
    (contextAttrs [TraceIDKey; UserIDKey; RequestIDKey] sampleContext) = true /\
  ContextHandler.Handle (inner := ColorHandler_Handler (rt := sampleRuntime))
    1 (ContextHandler.mk plainHandler [TraceIDKey; UserIDKey; RequestIDKey])
    sampleContext sampleRecord emptyStore
  = ColorHandler.Handle (rt := sampleRuntime) 1 plainHandler sampleContext
      (mkRecord 5 LevelInfo "request served" 2
         [("trace_id", StringValue "trace-123");
          ("user_id", StringValue "user-456");
          ("status", Int64Value 200); ("path", StringValue "/v1/items")])
      emptyStore.
Proof.
  split; [reflexivity|]. split; [reflexivity|].
  exact (proj2 (context_attributes_are_prepended
                  (inner := ColorHandler_Handler (rt := sampleRuntime)) 1
                  (ContextHandler.mk plainHandler
                     [TraceIDKey; UserIDKey; RequestIDKey])
                  sampleContext sampleRecord emptyStore eq_refl) eq_refl).
Defined.

(** A context value that is an empty slice of attributes is not nil,
    so that an attribute is made for its key; [AddAttrs] leaves it
    out, and the wrapped handler gets a record, and writes a line,
    without it. *)
Lemma empty_group_in_context_is_dropped :
  let keys := [TraceIDKey; UserIDKey; RequestIDKey] in
  let h := ContextHandler.mk plainHandler keys in
  Record_wf sampleRecord /\
  contextAttrs keys groupContext
  = [("trace_id", GroupValue []); ("user_id", StringValue "user-456")] /\
  rAttrs (ContextHandler.inject h groupContext sampleRecord)
  = [("user_id", StringValue "user-456");
     ("status", Int64Value 200); ("path", StringValue "/v1/items")] /\
  ContextHandler.inject h groupContext sampleRecord
  <> augmented keys groupContext sampleRecord /\
  option_map (fun p => fst p O)
    (ContextHandler.Handle (inner := ColorHandler_Handler (rt := sampleRuntime))
       1 h groupContext sampleRecord emptyStore)
  <> option_map (fun p => fst p O)
       (ColorHandler.Handle (rt := sampleRuntime) 1 plainHandler groupContext
          (augmented keys groupContext sampleRecord) emptyStore).
Proof.
  cbv zeta. split; [reflexivity|]. split; [reflexivity|].
  split; [reflexivity|]. split.
  - intros E. apply (f_equal rAttrs) in E. vm_compute in E. discriminate E.
  - intros E. vm_compute in E. discriminate E.
Qed.

(** ** Rendering attributes: termination and shape *)

Section Rendering.
Context {rt : GoRuntime}.

Lemma In_Attr_depth (ga : Attr) (l : list Attr) :
  In ga l -> (Attr_depth ga < Value_depth (GroupValue l))%nat.
Proof.
  simpl. induction l as [|x l IH]; intros Hin; simpl.
  - destruct Hin.
  - destruct Hin as [E|Hin].
    + subst. unfold Attr_depth, Val. lia.
    + specialize (IH Hin). lia.
Qed.

Lemma In_attrs_depth (a : Attr) (l : list Attr) :
  In a l -> (Attr_depth a <= attrs_depth l)%nat.
Proof.
  induction l as [|x l IH]; intros Hin; simpl.
  - destruct Hin.
  - destruct Hin as [E|Hin].
    + subst. lia.
    + specialize (IH Hin). lia.
Qed.

Lemma attrs_depth_app (l1 l2 : list Attr) :
  attrs_depth (l1 ++ l2) = Nat.max (attrs_depth l1) (attrs_depth l2).
Proof.
  induction l1 as [|x l1 IH]; simpl; [reflexivity|].
  rewrite IH. lia.
Qed.

Lemma attrs_depth_filter (p : Attr -> bool) (l : list Attr) :
  (attrs_depth (filter p l) <= attrs_depth l)%nat.
Proof.
  induction l as [|x l IH]; simpl; [lia|].
  destruct (p x); simpl; lia.
Qed.

Lemma appendGroup_total (step : string -> Attr -> option string)
  (l : list Attr) :
  (forall buf ga, In ga l -> exists r, step buf ga = Some r) ->
  forall i buf, exists r, ColorHandler.appendGroup step i buf l = Some r.
Proof.
  induction l as [|ga l IH]; intros Hstep i buf; simpl.
  - eauto.
  - destruct (Hstep (if (0 <? i)%nat || negb (isEmpty buf)
                     then buf ++ " " else buf) ga) as [r Er];
      [now left|].
    rewrite Er. apply IH. intros buf' ga' Hin. apply Hstep. now right.
Qed.

(** With a hook that does not deepen attributes, or none, rendering an
    attribute ends within a recursion depth above its nesting depth. *)
Lemma appendAttr_total (fuel : nat) (h : ColorHandler.t) :
  hook_shrinks (ColorHandler.opts h) ->
  forall buf a groups, (Attr_depth a < fuel)%nat ->
  exists r, ColorHandler.appendAttr fuel h buf a groups = Some r.
Proof.
  intros Hh. induction fuel as [|fuel IH]; intros buf a groups Hd; [lia|].
  simpl. destruct (isEmptyAttr a); [eauto|].
  unfold hook_shrinks in Hh.
  destruct (ReplaceAttr (ColorHandler.opts h)) as [f|].
  - specialize (Hh groups a).
    destruct (isEmptyAttr (f groups a)); [eauto|].
    destruct (Val (f groups a)) as [| | | | | | | |l] eqn:Ev; eauto.
    destruct l as [|x l]; [eauto|].
    apply appendGroup_total. intros buf' ga Hin. apply IH.
    apply In_Attr_depth in Hin. unfold Attr_depth in Hh at 1.
    rewrite Ev in Hh. lia.
  - destruct (Val a) as [| | | | | | | |l] eqn:Ev; eauto.
    destruct l as [|x l]; [eauto|].
    apply appendGroup_total. intros buf' ga Hin. apply IH.
    apply In_Attr_depth in Hin. unfold Attr_depth in Hd.
    rewrite Ev in Hd. lia.
Qed.

Lemma appendGroup_frag (step : string -> Attr -> option string)
  (l : list Attr) :
  (forall ga buf r, In ga l -> step buf ga = Some r ->
     exists frag, forall buf', isEmpty buf' = isEmpty buf ->
       step buf' ga = Some (buf' ++ frag)) ->
  forall i buf r, ColorHandler.appendGroup step i buf l = Some r ->
  exists frag, forall buf',
    (0 <? i)%nat = true \/ isEmpty buf' = isEmpty buf ->
    ColorHandler.appendGroup step i buf' l = Some (buf' ++ frag).
Proof.
  induction l as [|ga l IH]; intros Hstep i buf r; simpl.
  - intros _. exists EmptyString. intros buf' _. now rewrite append_nil_r.
  - set (c := fun b : string => (0 <? i)%nat || negb (isEmpty b)).
    change ((0 <? i)%nat || negb (isEmpty buf)) with (c buf).
    destruct (step (if c buf then buf ++ " " else buf) ga) as [r1|] eqn:E1;
      [|discriminate].
    intros E2.
    destruct (Hstep ga _ r1 (or_introl eq_refl) E1) as [f1 Hf1].
    assert (Er1 : r1 = (if c buf then buf ++ " " else buf) ++ f1).
    { specialize (Hf1 _ eq_refl). congruence. }
    destruct (IH (fun ga' buf' r' Hin => Hstep ga' buf' r' (or_intror Hin))
                (S i) r1 r E2) as [f2 Hf2].
    exists ((if c buf then " " else EmptyString) ++ f1 ++ f2).
    intros buf' Hb.
    change ((0 <? i)%nat || negb (isEmpty buf')) with (c buf').
    assert (Ec : c buf' = c buf).
    { unfold c. destruct Hb as [Hi|Hb]; [now rewrite Hi | now rewrite Hb]. }
    rewrite Ec.
    assert (Ee : isEmpty (if c buf then buf' ++ " " else buf')
                 = isEmpty (if c buf then buf ++ " " else buf)).
    { destruct (c buf) eqn:Ecb.
      - rewrite !isEmpty_append. simpl. now rewrite !andb_false_r.
      - assert (Ecb' : c buf' = false) by congruence.
        unfold c in Ecb, Ecb'.
        apply orb_false_iff in Ecb, Ecb'.
        destruct Ecb as [_ Ecb], Ecb' as [_ Ecb'].
        apply negb_false_iff in Ecb, Ecb'. congruence. }
    rewrite (Hf1 _ Ee).
    rewrite (Hf2 _ (or_introl eq_refl)).
    f_equal. destruct (c buf); simpl; now rewrite ?append_assoc.
Qed.

(** What rendering an attribute appends depends on the buffer only
    through whether it is empty. *)
Lemma appendAttr_frag (fuel : nat) (h : ColorHandler.t) :
  forall buf a groups r,
  ColorHandler.appendAttr fuel h buf a groups = Some r ->
  exists frag, forall buf', isEmpty buf' = isEmpty buf ->
    ColorHandler.appendAttr fuel h buf' a groups = Some (buf' ++ frag).
Proof.
  induction fuel as [|fuel IH]; intros buf a groups r; simpl; [discriminate|].
  destruct (isEmptyAttr a).
  { intros _. exists EmptyString. intros buf' _. now rewrite append_nil_r. }
  set (a' := match ReplaceAttr (ColorHandler.opts h) with
             | Some f => f groups a
             | None => a
             end).
  destruct (match ReplaceAttr (ColorHandler.opts h) with
            | Some _ => isEmptyAttr a'
            | None => false
            end).
  { intros _. exists EmptyString. intros buf' _. now rewrite append_nil_r. }
  destruct (Val a') as [| | | | | | | |l] eqn:Ev;
    try (intros _; eexists; intros buf' _; reflexivity).
  destruct l as [|x l].
  { intros _. exists EmptyString. intros buf' _. now rewrite append_nil_r. }
  intros E.
  destruct (appendGroup_frag
              (fun buf ga =>
                 ColorHandler.appendAttr fuel h buf ga (groups ++ [Key a']))
              (x :: l)
              (fun ga buf r _ E => IH buf ga _ r E) O buf r E) as [frag Hf].
  exists frag. intros buf' Hb. apply Hf. now right.
Qed.

Lemma appendAttr_prefix (fuel : nat) (h : ColorHandler.t) (buf : string)
  (a : Attr) (groups : list string) (r : string) :
  ColorHandler.appendAttr fuel h buf a groups = Some r ->
  exists frag, r = buf ++ frag.
Proof.
  intros E. destruct (appendAttr_frag fuel h buf a groups r E) as [frag Hf].
  exists frag. specialize (Hf buf eq_refl). congruence.
Qed.

Lemma appendRecordAttrs_total (fuel : nat) (h : ColorHandler.t) :
  hook_shrinks (ColorHandler.opts h) ->
  forall l buf, (attrs_depth l < fuel)%nat ->
  exists frag, ColorHandler.appendRecordAttrs fuel h buf l = Some (buf ++ frag).
Proof.
  intros Hh. induction l as [|a l IH]; intros buf Hd; simpl.
  - exists EmptyString. now rewrite append_nil_r.
  - simpl in Hd.
    destruct (appendAttr_total fuel h Hh (buf ++ " ") a
                (ColorHandler.groups h)) as [r Er]; [lia|].
    rewrite Er. destruct (appendAttr_prefix _ _ _ _ _ _ Er) as [f1 E1].
    destruct (IH r) as [f2 E2]; [lia|].
    rewrite E2. subst r. exists (" " ++ f1 ++ f2).
    now rewrite !append_assoc.
Qed.

(** Rendering under a hook that nests every attribute. *)
Lemma appendGroup_stuck (step : string -> Attr -> option string)
  (l : list Attr) :
  (forall buf ga, isEmptyAttr ga = false -> step buf ga = None) ->
  existsb (fun x => negb (isEmptyAttr x)) l = true ->
  forall i buf, ColorHandler.appendGroup step i buf l = None.
Proof.
  intros Hs. induction l as [|ga l IH]; intros Hex i buf; [discriminate|].
  cbn [ColorHandler.appendGroup]. cbn [existsb] in Hex.
  destruct (isEmptyAttr ga) eqn:Ea.
  - cbn [negb orb] in Hex.
    destruct (step _ ga); [apply IH; exact Hex | reflexivity].
  - now rewrite Hs.
Qed.

Lemma appendAttr_nests (f : list string -> Attr -> Attr) (h : ColorHandler.t) :
  ReplaceAttr (ColorHandler.opts h) = Some f ->
  hook_nests f ->
  forall fuel buf a groups,
  isEmptyAttr a = false ->
  ColorHandler.appendAttr fuel h buf a groups = None.
Proof.
  intros Hf Hn.
  induction fuel as [|fuel IH]; intros buf a groups Ha; [reflexivity|].
  cbn [ColorHandler.appendAttr]. rewrite Ha, Hf.
  destruct (Hn groups a) as [l [Ev Hex]].
  assert (He : isEmptyAttr (f groups a) = false).
  { unfold isEmptyAttr. rewrite Ev. apply andb_false_r. }
  rewrite He, Ev.
  destruct l as [|x l]; [discriminate|].
  apply appendGroup_stuck; [|exact Hex].
  intros buf' ga Hga. now apply IH.
Qed.

Lemma Handle_nests (f : list string -> Attr -> Attr) (h : ColorHandler.t) :
  ReplaceAttr (ColorHandler.opts h) = Some f ->
  hook_nests f ->
  forall fuel ctx r st,
  existsb (fun a => negb (isEmptyAttr a)) (rAttrs r) = true ->
  ColorHandler.Handle fuel h ctx r st = None.
Proof.
  intros Hf Hn fuel ctx r st Hex.
  unfold ColorHandler.Handle, ColorHandler.formatLine.
  assert (HR : forall l buf,
             existsb (fun a => negb (isEmptyAttr a)) l = true ->
             ColorHandler.appendRecordAttrs fuel h buf l = None).
  { induction l as [|a l IHl]; intros buf Hl; [discriminate|].
    simpl in *. destruct (isEmptyAttr a) eqn:Ea.
    - destruct fuel as [|fuel].
      + reflexivity.
      + simpl. rewrite Ea. apply IHl. exact Hl.
    - now rewrite (appendAttr_nests f h Hf Hn). }
  now rewrite HR.
Qed.

Lemma wrappingHook_nests : hook_nests wrappingHook.
Proof.
  intros groups a. exists [("inner", Int64Value 1)]. split; reflexivity.
Defined.

End Rendering.

(** ** The development chain: one call, one write *)

Section DevChain.
Context {rt : GoRuntime}.

Lemma AddAttrs_wf (t : Time) (level : Level) (msg : string) (pc : Z)
  (args : list Attr) :
  Record_wf (AddAttrs (NewRecord t level msg pc) args).
Proof.
  unfold Record_wf, AddAttrs, NewRecord. simpl.
  induction args as [|a args IH]; simpl; [reflexivity|].
  destruct (isEmptyGroup (Val a)) eqn:E; simpl; [exact IH|].
  now rewrite E.
Qed.

(** The record handed on nests no deeper than the attributes found in
    the context and those of the record. *)
Lemma inject_depth {H : Type} (h : ContextHandler.t H) (ctx : Context)
  (r : LogRecord) :
  Record_wf r ->
  (attrs_depth (rAttrs (ContextHandler.inject h ctx r))
   <= Nat.max (attrs_depth (ContextHandler.extract (ContextHandler.keys h) ctx))
        (attrs_depth (rAttrs r)))%nat.
Proof.
  intros Hwf. rewrite inject_attrs by exact Hwf. cbn [rAttrs].
  rewrite attrs_depth_app, extract_is_contextAttrs. unfold presentAttrs.
  pose proof (attrs_depth_filter (fun a => negb (isEmptyGroup (Val a)))
                (contextAttrs (ContextHandler.keys h) ctx)).
  lia.
Qed.

(** The hook [Init] installs does not deepen attributes. *)
Lemma initOptions_shrinks (cfg : config) : hook_shrinks (initOptions cfg).
Proof.
  unfold hook_shrinks, initOptions. simpl. intros groups a.
  unfold initReplaceAttr.
  destruct (String.eqb (Key a) TimeKey && _); [|lia].
  destruct (Val a) eqn:Ev; try lia.
  unfold Attr_depth. rewrite Ev. simpl. lia.
Qed.

(** A logging call on the development chain: the line the colour
    handler builds is the head of the line, what the attributes
    append, and a newline; it is written once, and the result of the
    write is what the handle operation returns. *)
Lemma dev_chain_log (fuel : nat) (h : ContextHandler.t ColorHandler.t)
  (ctx : Context) (level : Level) (msg : string) (args : list Attr)
  (now : Time) (pc : Z) (st : Store) :
  let ch := ContextHandler.handler h in
  let r := ContextHandler.inject h ctx (AddAttrs (NewRecord now level msg pc) args) in
  hook_shrinks (ColorHandler.opts ch) ->
  (attrs_depth args < fuel)%nat ->
  (attrs_depth (ContextHandler.extract (ContextHandler.keys h) ctx) < fuel)%nat ->
  exists frag,
    ColorHandler.appendRecordAttrs fuel ch (ColorHandler.lineHead ch r)
      (rAttrs r) = Some (ColorHandler.lineHead ch r ++ frag) /\
    ColorHandler.formatLine fuel ch r
      = Some ((ColorHandler.lineHead ch r ++ frag) ++ nl) /\
    ContextHandler.Handle fuel h ctx
      (AddAttrs (NewRecord now level msg pc) args) st
      = Some (Write (ColorHandler.output ch)
                ((ColorHandler.lineHead ch r ++ frag) ++ nl) st) /\
    logWithCaller fuel ctx (mkSlogLogger h) level msg args now pc st
      = Some (if minLevel ch <=? level
              then recordWrite st (ColorHandler.output ch)
                     ((ColorHandler.lineHead ch r ++ frag) ++ nl)
              else st).
Proof.
  intros ch r Hh Hd Hc.
  assert (Hr : (attrs_depth (rAttrs r) < fuel)%nat).
  { unfold r.
    eapply Nat.le_lt_trans; [apply inject_depth, AddAttrs_wf|].
    apply Nat.max_lub_lt; [exact Hc|].
    unfold AddAttrs, NewRecord. simpl.
    eapply Nat.le_lt_trans; [apply attrs_depth_filter | exact Hd]. }
  destruct (appendRecordAttrs_total fuel ch Hh (rAttrs r)
              (ColorHandler.lineHead ch r) Hr) as [frag Ef].
  exists frag.
  assert (EL : ColorHandler.formatLine fuel ch r
               = Some ((ColorHandler.lineHead ch r ++ frag) ++ nl)).
  { unfold ColorHandler.formatLine. now rewrite Ef. }
  assert (EH : ContextHandler.Handle fuel h ctx
                 (AddAttrs (NewRecord now level msg pc) args) st
               = Some (Write (ColorHandler.output ch)
                         ((ColorHandler.lineHead ch r ++ frag) ++ nl) st)).
  { unfold ContextHandler.Handle. simpl. unfold ColorHandler.Handle.
    fold ch. fold r. now rewrite EL. }
  repeat split; try assumption.
  unfold logWithCaller. cbn [lHandler hEnabled ContextHandler_Handler].
  unfold ContextHandler.Enabled. cbn [hEnabled ColorHandler_Handler].
  unfold ColorHandler.Enabled. fold ch. fold (minLevel ch).
  destruct (minLevel ch <=? level); simpl; [|reflexivity].
  change (ColorHandler.Handle fuel (ContextHandler.handler h) ctx
            (ContextHandler.inject h ctx
               (AddAttrs (NewRecord now level msg pc) args)) st)
    with (ContextHandler.Handle fuel h ctx
            (AddAttrs (NewRecord now level msg pc) args) st).
  now rewrite EH.
Qed.

End DevChain.

(** ** C2: level gating and the written line *)


Section Gating.
Context {rt : GoRuntime}.


End Gating.


(** ** C8: the write error *)

Section WriteError.
Context {rt : GoRuntime}.

(** Whenever the colour handler's [Handle] returns, it has written one
    buffer and returns the error the writer answered with. *)
Lemma Handle_returns_the_write_error (fuel : nat) (h : ColorHandler.t)
  (ctx : Context) (r : LogRecord) (st st' : Store) (e : error) :
  ColorHandler.Handle fuel h ctx r st = Some (st', e) ->
  exists line,
    ColorHandler.formatLine fuel h r = Some line /\
    st' = recordWrite st (ColorHandler.output h) line /\
    e = writeError (ColorHandler.output h) (st (ColorHandler.output h)) line.
Proof.
  unfold ColorHandler.Handle, Write.
  destruct (ColorHandler.formatLine fuel h r) as [line|]; [|discriminate].
  intros E. injection E as <- <-. exists line. repeat split.
Qed.


End WriteError.



(** ** C6: binding attributes in one call or in two *)

(** C6.  Binding in two calls and binding in one do not give the same
    pre-rendered text.  An attribute bound first and a group bound
    second are joined by one space; bound in one call, by two, the
    loop of [WithAttrs] and the group loop of [appendAttr] each writing
    a separator.  The same holds when the second list starts with the
    empty attribute: bound in one call its separator stays behind. *)
Theorem binding_a_group_second_differs :
  let A := [("a", StringValue "1")] in
  let B := [("G", GroupValue [("x", StringValue "1")])] in
  let B' := [(EmptyString, AnyValue o_nil); ("b", StringValue "2")] in
  option_map ColorHandler.preformat
    (bindTwice (rt := sampleRuntime) 2 plainHandler A B)
  = Some (colorPurple ++ "a" ++ colorReset ++ "=1 "
            ++ colorPurple ++ "G.x" ++ colorReset ++ "=1") /\
  option_map ColorHandler.preformat
    (ColorHandler.WithAttrs (rt := sampleRuntime) 2 plainHandler (A ++ B))
  = Some (colorPurple ++ "a" ++ colorReset ++ "=1  "
            ++ colorPurple ++ "G.x" ++ colorReset ++ "=1") /\
  bindTwice (rt := sampleRuntime) 2 plainHandler A B
  <> ColorHandler.WithAttrs (rt := sampleRuntime) 2 plainHandler (A ++ B) /\
  option_map ColorHandler.preformat
    (bindTwice (rt := sampleRuntime) 2 plainHandler A B')
  = Some (colorPurple ++ "a" ++ colorReset ++ "=1 "
            ++ colorPurple ++ "b" ++ colorReset ++ "=2") /\
  option_map ColorHandler.preformat
    (ColorHandler.WithAttrs (rt := sampleRuntime) 2 plainHandler (A ++ B'))
  = Some (colorPurple ++ "a" ++ colorReset ++ "=1  "
            ++ colorPurple ++ "b" ++ colorReset ++ "=2").
Proof.
  cbv zeta. split; [reflexivity|]. split; [reflexivity|]. split.
  - intros E. apply (f_equal (option_map ColorHandler.preformat)) in E.
    vm_compute in E. discriminate E.
  - split; reflexivity.
Qed.

Section Binding.
Context {rt : GoRuntime}.

Lemma appendGroup_ext (step step' : string -> Attr -> option string)
  (l : list Attr) :
  (forall buf ga, step buf ga = step' buf ga) ->
  forall i buf,
  ColorHandler.appendGroup step i buf l = ColorHandler.appendGroup step' i buf l.
Proof.
  intros Hs. induction l as [|ga l IH]; intros i buf; simpl.
  - reflexivity.
  - rewrite Hs. destruct (step' _ ga); [apply IH | reflexivity].
Qed.

(** Rendering reads the options of the handler and nothing else. *)
Lemma appendAttr_opts (fuel : nat) (h h' : ColorHandler.t) :
  ColorHandler.opts h = ColorHandler.opts h' ->
  forall buf a groups,
  ColorHandler.appendAttr fuel h buf a groups
  = ColorHandler.appendAttr fuel h' buf a groups.
Proof.
  intros Eo. induction fuel as [|fuel IH]; intros buf a groups; simpl.
  - reflexivity.
  - rewrite <- Eo.
    destruct (isEmptyAttr a); [reflexivity|].
    destruct (match ReplaceAttr (ColorHandler.opts h) with
              | Some _ => _
              | None => false
              end); [reflexivity|].
    destruct (Val _); try reflexivity.
    destruct l; [reflexivity|].
    apply appendGroup_ext. intros. apply IH.
Qed.

Lemma preformatAttrs_opts (fuel : nat) (h h' : ColorHandler.t) :
  ColorHandler.opts h = ColorHandler.opts h' ->
  ColorHandler.groups h = ColorHandler.groups h' ->
  forall l buf,
  ColorHandler.preformatAttrs fuel h buf l
  = ColorHandler.preformatAttrs fuel h' buf l.
Proof.
  intros Eo Eg. induction l as [|a l IH]; intros buf; simpl.
  - reflexivity.
  - rewrite <- Eg, (appendAttr_opts fuel h h' Eo).
    destruct (ColorHandler.appendAttr fuel h' _ a _); [apply IH | reflexivity].
Qed.

Lemma preformatAttrs_app (fuel : nat) (h : ColorHandler.t) (A B : list Attr) :
  forall buf,
  ColorHandler.preformatAttrs fuel h buf (A ++ B)
  = match ColorHandler.preformatAttrs fuel h buf A with
    | Some b => ColorHandler.preformatAttrs fuel h b B
    | None => None
    end.
Proof.
  induction A as [|a A IH]; intros buf; simpl.
  - reflexivity.
  - destruct (ColorHandler.appendAttr fuel h _ a _); [apply IH | reflexivity].
Qed.

Lemma preformatAttrs_total (fuel : nat) (h : ColorHandler.t) :
  hook_shrinks (ColorHandler.opts h) ->
  forall l buf, (attrs_depth l < fuel)%nat ->
  exists r, ColorHandler.preformatAttrs fuel h buf l = Some r.
Proof.
  intros Hh. induction l as [|a l IH]; intros buf Hd; simpl.
  - eauto.
  - simpl in Hd.
    destruct (appendAttr_total fuel h Hh
                (if negb (isEmpty buf) then buf ++ " " else buf) a
                (ColorHandler.groups h)) as [r Er]; [lia|].
    rewrite Er. apply IH. lia.
Qed.

(** From a buffer that is not empty, the loop appends the same text
    whatever the buffer. *)
Lemma preformatAttrs_frag (fuel : nat) (h : ColorHandler.t) :
  forall l buf r,
  buf <> EmptyString ->
  ColorHandler.preformatAttrs fuel h buf l = Some r ->
  exists frag, forall buf', buf' <> EmptyString ->
    ColorHandler.preformatAttrs fuel h buf' l = Some (buf' ++ frag).
Proof.
  induction l as [|a l IH]; intros buf r Hne; simpl.
  - intros _. exists EmptyString. intros buf' _. now rewrite append_nil_r.
  - apply isEmpty_false in Hne. rewrite Hne. simpl.
    destruct (ColorHandler.appendAttr fuel h (buf ++ " ") a
                (ColorHandler.groups h)) as [r1|] eqn:E1; [|discriminate].
    intros E2.
    destruct (appendAttr_frag fuel h _ _ _ _ E1) as [f1 Hf1].
    assert (Er1 : r1 = (buf ++ " ") ++ f1).
    { specialize (Hf1 _ eq_refl). congruence. }
    assert (Hr1 : r1 <> EmptyString).
    { subst r1. apply isEmpty_false. rewrite !isEmpty_append.
      simpl. now rewrite andb_false_r. }
    destruct (IH r1 r Hr1 E2) as [f2 Hf2].
    exists (" " ++ f1 ++ f2). intros buf' Hne'.
    apply isEmpty_false in Hne'. rewrite Hne'. simpl.
    rewrite (Hf1 (buf' ++ " ")).
    + rewrite Hf2.
      * now rewrite !append_assoc.
      * apply isEmpty_false. rewrite !isEmpty_append.
        simpl. now rewrite andb_false_r.
    + rewrite !isEmpty_append. simpl. now rewrite !andb_false_r.
Qed.

(** An attribute rendered as one pair appends that pair to any
    buffer. *)
Lemma plainAttr_appendAttr (fuel : nat) (h : ColorHandler.t) (a : Attr)
  (buf : string) :
  plainAttr h a = true ->
  ColorHandler.appendAttr (S fuel) h buf a (ColorHandler.groups h)
  = Some (buf ++ plainText h a).
Proof.
  unfold plainAttr, plainText, replaced. intros Hp.
  apply andb_true_iff in Hp. destruct Hp as [Hp Hg].
  apply andb_true_iff in Hp. destruct Hp as [He Hr].
  apply negb_true_iff in He, Hg.
  simpl. rewrite He.
  destruct (ReplaceAttr (ColorHandler.opts h)) as [f|].
  - apply negb_true_iff in Hr. rewrite Hr.
    destruct (Val (f (ColorHandler.groups h) a)); try reflexivity.
    discriminate Hg.
  - destruct (Val a); try reflexivity. discriminate Hg.
Qed.

Lemma plainText_not_empty (h : ColorHandler.t) (a : Attr) :
  plainText h a <> EmptyString.
Proof. unfold plainText, colorPurple, esc, chr. simpl. discriminate. Qed.

(** After text that is there already, a list that is empty or starts
    with a plain attribute contributes a space and its own rendering,
    or nothing when it renders nothing. *)
Lemma preformatAttrs_after (fuel : nat) (h : ColorHandler.t)
  (B : list Attr) (bA bB : string) :
  headPlain h B = true ->
  (0 < fuel)%nat ->
  bA <> EmptyString ->
  ColorHandler.preformatAttrs fuel h EmptyString B = Some bB ->
  ColorHandler.preformatAttrs fuel h bA B
  = Some (if isEmpty bB then bA else bA ++ " " ++ bB).
Proof.
  intros Hp Hfuel HbA EB.
  destruct B as [|b B'].
  - simpl in *. injection EB as <-. reflexivity.
  - destruct fuel as [|fuel]; [lia|].
    simpl in Hp. cbn [ColorHandler.preformatAttrs] in *.
    cbn [isEmpty negb] in EB.
    apply isEmpty_false in HbA. rewrite HbA. cbn [negb].
    rewrite plainAttr_appendAttr in * by exact Hp.
    cbn [append] in EB.
    destruct (preformatAttrs_frag (S fuel) h B' (plainText h b) bB
                (plainText_not_empty h b) EB) as [t Ht].
    assert (EbB : bB = plainText h b ++ t).
    { specialize (Ht _ (plainText_not_empty h b)). congruence. }
    rewrite Ht.
    + assert (Hn : isEmpty bB = false).
      { subst bB. apply isEmpty_false. intros E.
        apply (plainText_not_empty h b).
        destruct (plainText h b); [reflexivity | discriminate E]. }
      rewrite Hn, EbB. now rewrite !append_assoc.
    + apply isEmpty_false. rewrite !isEmpty_append.
      simpl. now rewrite andb_false_r.
Qed.

(** X22.  With a hook that does not deepen attributes (or none),
    binding [A] and then [B] gives the handler that binding [A ++ B]
    in one call gives -- the same bound attributes, group path and
    pre-rendered text, hence the same lines -- when [B] is empty or
    its first attribute is rendered as one [key=value] pair, or [A]
    renders to no text. *)
Theorem binding_twice_is_binding_once (fuel : nat) (h : ColorHandler.t)
  (A B : list Attr) :
  hook_shrinks (ColorHandler.opts h) ->
  (attrs_depth (A ++ B) < fuel)%nat ->
  headPlain h B = true
  \/ ColorHandler.preformatAttrs fuel h EmptyString A = Some EmptyString ->
  exists h2,
    bindTwice fuel h A B = Some h2 /\
    ColorHandler.WithAttrs fuel h (A ++ B) = Some h2.
Proof.
  intros Hh Hd Hc.
  rewrite attrs_depth_app in Hd.
  destruct (preformatAttrs_total fuel h Hh A EmptyString) as [bA EA]; [lia|].
  destruct (preformatAttrs_total fuel h Hh B EmptyString) as [bB EB]; [lia|].
  unfold bindTwice, ColorHandler.WithAttrs at 1 3.
  rewrite preformatAttrs_app, EA.
  set (h1 := ColorHandler.mk _ _ _ _ _ _).
  unfold ColorHandler.WithAttrs.
  rewrite (preformatAttrs_opts fuel h1 h eq_refl eq_refl), EB.
  cbn [ColorHandler.opts ColorHandler.output ColorHandler.mu
       ColorHandler.attrs ColorHandler.groups ColorHandler.preformat h1].
  destruct (isEmpty bA) eqn:HbA.
  - apply isEmpty_true in HbA. subst bA. rewrite EB. cbn [negb].
    eexists. split; [reflexivity|]. now rewrite app_assoc.
  - assert (Hp : headPlain h B = true).
    { destruct Hc as [Hp|Hc]; [exact Hp|].
      rewrite EA in Hc. injection Hc as ->. discriminate HbA. }
    rewrite (preformatAttrs_after fuel h B bA bB Hp) by
      (try lia; try exact EB; now apply isEmpty_false).
    cbn [negb].
    eexists. split; [reflexivity|]. f_equal. rewrite app_assoc. f_equal.
    destruct (isEmpty bB) eqn:HbB; cbn [negb].
    + rewrite HbA. reflexivity.
    + rewrite !isEmpty_append, HbA.
      rewrite !andb_false_r. cbn [negb].
      now rewrite !append_assoc.
Qed.

End Binding.

Lemma binding_twice_is_binding_once_witness :
  hook_shrinks (ColorHandler.opts plainHandler) /\
  (attrs_depth ([("a", StringValue "1")] ++ [("b", StringValue "2")]) < 1)%nat /\
  (headPlain plainHandler [("b", StringValue "2")] = true
   \/ ColorHandler.preformatAttrs (rt := sampleRuntime) 1 plainHandler
        EmptyString [("a", StringValue "1")] = Some EmptyString) /\
  exists h2,
    bindTwice (rt := sampleRuntime) 1 plainHandler
      [("a", StringValue "1")] [("b", StringValue "2")] = Some h2 /\
    ColorHandler.WithAttrs (rt := sampleRuntime) 1 plainHandler
      ([("a", StringValue "1")] ++ [("b", StringValue "2")]) = Some h2.
Proof.
  assert (Hh : hook_shrinks (ColorHandler.opts plainHandler)) by exact I.
  assert (Hd : (attrs_depth ([("a", StringValue "1")]
                               ++ [("b", StringValue "2")]) < 1)%nat)
    by (simpl; lia).
  assert (Hc : headPlain plainHandler [("b", StringValue "2")] = true
               \/ ColorHandler.preformatAttrs (rt := sampleRuntime) 1
                    plainHandler EmptyString [("a", StringValue "1")]
                  = Some EmptyString)
    by (left; reflexivity).
  split; [exact Hh|]. split; [exact Hd|]. split; [exact Hc|].
  exact (binding_twice_is_binding_once (rt := sampleRuntime) 1 plainHandler
           [("a", StringValue "1")] [("b", StringValue "2")] Hh Hd Hc).
Defined.

(** ** C3: string values, verbatim or quoted *)

Section Quoting.
Import Utf8 Strconv.

Lemma byteZ_range (c : ascii) : 0 <= byteZ c < 256.
Proof.
  unfold byteZ. pose proof (N_ascii_bounded c). lia.
Qed.

Lemma zbyte_byteZ (c : ascii) : zbyte (byteZ c) = c.
Proof.
  unfold zbyte. pose proof (byteZ_range c) as Hc.
  rewrite Z.mod_small by exact Hc. unfold byteZ.
  rewrite N2Z.id. apply ascii_N_embedding.
Qed.

Lemma byteZ_zbyte (x : Z) : 0 <= x < 256 -> byteZ (zbyte x) = x.
Proof.
  intros Hx. unfold byteZ, zbyte. rewrite Z.mod_small by exact Hx.
  rewrite N_ascii_embedding by lia. lia.
Qed.

Lemma chr_byteZ (c : ascii) : chr (byteZ c) = String c EmptyString.
Proof. unfold chr. now rewrite zbyte_byteZ. Qed.

(** The entries of [first], by the range of the leading byte. *)
Lemma first_cases (b : Z) :
  0 <= b < 256 ->
  (b < 0x80 /\ first b = as_) \/
  ((0x80 <= b < 0xC2 \/ 0xF5 <= b) /\ first b = xx) \/
  (0xC2 <= b < 0xE0 /\ first b = s1) \/
  (b = 0xE0 /\ first b = s2) \/
  ((0xE1 <= b < 0xED \/ 0xEE <= b < 0xF0) /\ first b = s3) \/
  (b = 0xED /\ first b = s4) \/
  (b = 0xF0 /\ first b = s5) \/
  (0xF1 <= b < 0xF4 /\ first b = s6) \/
  (b = 0xF4 /\ first b = s7).
Proof.
  intros Hb. unfold first.
  repeat match goal with
         | |- context [?x <? ?y] => destruct (Z.ltb_spec x y)
         | |- context [?x =? ?y] => destruct (Z.eqb_spec x y)
         end; lia.
Qed.

Ltac range_check :=
  repeat match goal with
         | |- context [(?x <? ?y) || (?z <? ?w)] =>
             destruct (Z.ltb_spec x y); destruct (Z.ltb_spec z w);
             cbn [orb]
         end.

Lemma decode_cases (c0 : ascii) (t : string) :
  Decoded (String c0 t) (fst (DecodeRuneInString (String c0 t)))
    (snd (DecodeRuneInString (String c0 t))).
Proof.
  unfold DecodeRuneInString.
  change (String.length (String c0 t)) with (S (String.length t)).
  change (byteAt (String c0 t) 0) with (byteZ c0).
  pose proof (byteZ_range c0) as H0.
  destruct (first_cases (byteZ c0) H0)
    as [[Hb Hf]|[[Hb Hf]|[[Hb Hf]|[[Hb Hf]|[[Hb Hf]|[[Hb Hf]|[[Hb Hf]|[[Hb Hf]|[Hb Hf]]]]]]]]];
    rewrite Hf;
    match goal with
    | |- context [as_ <=? ?k] =>
        let v1 := eval vm_compute in (as_ <=? k) in
        let v2 := eval vm_compute in (Z.odd k) in
        let v3 := eval vm_compute in (Z.to_nat (k mod 8)) in
        let v4 := eval vm_compute in (acceptRanges (k / 16)) in
        change (as_ <=? k) with v1; change (Z.odd k) with v2;
        change (Z.to_nat (k mod 8)) with v3;
        change (acceptRanges (k / 16)) with v4
    end;
    cbv [locb hicb];
    cbn -[Z.modulo Z.mul Z.add byteZ byteAt Z.ltb].
  - now constructor.
  - constructor. lia.
  - destruct t as [|c1 t1]; cbn -[Z.modulo Z.mul Z.add byteZ Z.ltb];
      range_check; constructor; lia.
  - destruct t as [|c1 [|c2 t2]]; cbn -[Z.modulo Z.mul Z.add byteZ Z.ltb];
      range_check; constructor; lia.
  - destruct t as [|c1 [|c2 t2]]; cbn -[Z.modulo Z.mul Z.add byteZ Z.ltb];
      range_check; constructor; lia.
  - destruct t as [|c1 [|c2 t2]]; cbn -[Z.modulo Z.mul Z.add byteZ Z.ltb];
      range_check; constructor; lia.
  - destruct t as [|c1 [|c2 [|c3 t3]]];
      cbn -[Z.modulo Z.mul Z.add byteZ Z.ltb];
      range_check; constructor; lia.
  - destruct t as [|c1 [|c2 [|c3 t3]]];
      cbn -[Z.modulo Z.mul Z.add byteZ Z.ltb];
      range_check; constructor; lia.
  - destruct t as [|c1 [|c2 [|c3 t3]]];
      cbn -[Z.modulo Z.mul Z.add byteZ Z.ltb];
      range_check; constructor; lia.
Qed.

Ltac divlia := Z.to_euclidean_division_equations; lia.

Lemma Decoded_width (s : string) (r : Z) (w : nat) :
  Decoded s r w -> (1 <= w <= String.length s)%nat.
Proof. intros D. destruct D; simpl; lia. Qed.

Lemma Decoded_rune (s : string) (r : Z) (w : nat) :
  Decoded s r w -> (2 <= w)%nat ->
  0x80 <= r <= 0x10FFFF /\ ValidRune r = true /\
  (w = 2%nat -> r <= 0x7FF) /\ (w = 3%nat -> 0x800 <= r <= 0xFFFF) /\
  (w = 4%nat -> 0x10000 <= r).
Proof.
  intros D Hw. unfold ValidRune, surrogateMin, surrogateMax, MaxRune.
  destruct D; try lia.
  - assert (E0 : byteZ c0 mod 32 = byteZ c0 - 192) by divlia.
    assert (E1 : byteZ c1 mod 64 = byteZ c1 - 128) by divlia.
    rewrite E0, E1. repeat split; lia.
  - assert (E0 : byteZ c0 mod 16 = byteZ c0 - 224) by divlia.
    assert (E1 : byteZ c1 mod 64 = byteZ c1 - 128) by divlia.
    assert (E2 : byteZ c2 mod 64 = byteZ c2 - 128) by divlia.
    rewrite E0, E1, E2. repeat split; lia.
  - assert (E0 : byteZ c0 mod 8 = byteZ c0 - 240) by divlia.
    assert (E1 : byteZ c1 mod 64 = byteZ c1 - 128) by divlia.
    assert (E2 : byteZ c2 mod 64 = byteZ c2 - 128) by divlia.
    assert (E3 : byteZ c3 mod 64 = byteZ c3 - 128) by divlia.
    rewrite E0, E1, E2, E3. repeat split; lia.
Qed.

(** Encoding the rune of a well-formed sequence gives the sequence
    back. *)
Lemma Encode_Decoded (s : string) (r : Z) (w : nat) :
  Decoded s r w -> (2 <= w)%nat -> EncodeRune r = take w s.
Proof.
  intros D Hw.
  destruct (Decoded_rune s r w D Hw) as [Hr [Hv [H2 [H3 H4]]]].
  unfold EncodeRune. rewrite Hv. cbn [negb].
  unfold rune1Max, rune2Max, rune3Max.
  destruct D; try lia; cbn [take].
  - specialize (H2 eq_refl).
    set (r := byteZ c0 mod 32 * 64 + byteZ c1 mod 64) in *.
    destruct (Z.leb_spec 0 r); [|lia].
    destruct (Z.leb_spec r 127); [lia|].
    destruct (Z.leb_spec r 2047); [|lia].
    cbn [andb].
    assert (E0 : 0xC0 + r / 64 = byteZ c0) by (unfold r; divlia).
    assert (E1 : 0x80 + r mod 64 = byteZ c1) by (unfold r; divlia).
    rewrite E0, E1, !chr_byteZ. reflexivity.
  - specialize (H3 eq_refl).
    set (r := byteZ c0 mod 16 * 4096 + byteZ c1 mod 64 * 64
              + byteZ c2 mod 64) in *.
    destruct (Z.leb_spec 0 r); [|lia].
    destruct (Z.leb_spec r 127); [lia|].
    destruct (Z.leb_spec r 2047); [lia|].
    destruct (Z.leb_spec r 65535); [|lia].
    cbn [andb].
    assert (E0 : 0xE0 + r / 4096 = byteZ c0) by (unfold r; divlia).
    assert (E1 : 0x80 + (r / 64) mod 64 = byteZ c1) by (unfold r; divlia).
    assert (E2 : 0x80 + r mod 64 = byteZ c2) by (unfold r; divlia).
    rewrite E0, E1, E2, !chr_byteZ. reflexivity.
  - specialize (H4 eq_refl).
    set (r := byteZ c0 mod 8 * 262144 + byteZ c1 mod 64 * 4096
              + byteZ c2 mod 64 * 64 + byteZ c3 mod 64) in *.
    destruct (Z.leb_spec 0 r); [|lia].
    destruct (Z.leb_spec r 127); [lia|].
    destruct (Z.leb_spec r 2047); [lia|].
    destruct (Z.leb_spec r 65535); [lia|].
    cbn [andb].
    assert (E0 : 0xF0 + r / 262144 = byteZ c0) by (unfold r; divlia).
    assert (E1 : 0x80 + (r / 4096) mod 64 = byteZ c1) by (unfold r; divlia).
    assert (E2 : 0x80 + (r / 64) mod 64 = byteZ c2) by (unfold r; divlia).
    assert (E3 : 0x80 + r mod 64 = byteZ c3) by (unfold r; divlia).
    rewrite E0, E1, E2, E3, !chr_byteZ. reflexivity.
Qed.

Ltac eval_first :=
  match goal with
  | |- context [as_ <=? ?k] =>
      let v1 := eval vm_compute in (as_ <=? k) in
      let v2 := eval vm_compute in (Z.odd k) in
      let v3 := eval vm_compute in (Z.to_nat (k mod 8)) in
      let v4 := eval vm_compute in (acceptRanges (k / 16)) in
      change (as_ <=? k) with v1; change (Z.odd k) with v2;
      change (Z.to_nat (k mod 8)) with v3;
      change (acceptRanges (k / 16)) with v4
  end;
  cbv [locb hicb].

(** Decoding a well-formed sequence does not look past it. *)
Lemma decode_take (s : string) (r : Z) (w : nat) (Y : string) :
  Decoded s r w -> (2 <= w)%nat ->
  DecodeRuneInString (take w s ++ Y) = (r, w).
Proof.
  intros D Hw. destruct D; try lia; cbn [take append];
    unfold DecodeRuneInString;
    match goal with
    | |- context [String.length (String ?c ?t)] =>
        change (String.length (String c t)) with (S (String.length t));
        change (byteAt (String c t) 0) with (byteZ c);
        destruct (first_cases (byteZ c) (byteZ_range c))
          as [[Hb Hf]|[[Hb Hf]|[[Hb Hf]|[[Hb Hf]|[[Hb Hf]|[[Hb Hf]|[[Hb Hf]|[[Hb Hf]|[Hb Hf]]]]]]]]];
        try lia
    end;
    rewrite Hf; eval_first;
    cbn -[Z.modulo Z.mul Z.add byteZ Z.ltb];
    range_check; try lia; reflexivity.
Qed.

(** A leading byte below [0x80] is a rune of its own. *)
Lemma decode_ascii (c : ascii) (t : string) :
  byteZ c < 0x80 -> DecodeRuneInString (String c t) = (byteZ c, 1%nat).
Proof.
  intros Hc. unfold DecodeRuneInString.
  change (String.length (String c t)) with (S (String.length t)).
  change (byteAt (String c t) 0) with (byteZ c).
  destruct (first_cases (byteZ c) (byteZ_range c))
    as [[Hb Hf]|[[Hb Hf]|[[Hb Hf]|[[Hb Hf]|[[Hb Hf]|[[Hb Hf]|[[Hb Hf]|[[Hb Hf]|[Hb Hf]]]]]]]]];
    try lia.
  rewrite Hf. reflexivity.
Qed.

Lemma unhex_lowerhex (d : Z) :
  0 <= d < 16 -> unhex (byteZ (zbyte (lowerhex d))) = Some d.
Proof.
  intros Hd.
  assert (E : d = 0 \/ d = 1 \/ d = 2 \/ d = 3 \/ d = 4 \/ d = 5 \/ d = 6
              \/ d = 7 \/ d = 8 \/ d = 9 \/ d = 10 \/ d = 11 \/ d = 12
              \/ d = 13 \/ d = 14 \/ d = 15) by lia.
  repeat (destruct E as [E|E]; [subst d; reflexivity|]).
  subst d. reflexivity.
Qed.

Lemma parseHex_hexDigits (n : nat) :
  forall v r t, 0 <= r ->
  parseHex n v (hexDigits n r ++ t)
  = Some (v * 16 ^ Z.of_nat n + r mod 16 ^ Z.of_nat n, t).
Proof.
  induction n as [|n IH]; intros v r t Hr.
  - simpl. rewrite Z.mod_1_r. f_equal. f_equal. lia.
  - cbn [hexDigits]. rewrite append_assoc. cbn [chr append parseHex].
    rewrite unhex_lowerhex by (apply Z.mod_pos_bound; lia).
    rewrite IH by exact Hr. f_equal. f_equal.
    rewrite Nat2Z.inj_succ, Z.pow_succ_r by lia.
    rewrite (Z.mul_comm 16 (16 ^ Z.of_nat n)).
    rewrite Z.rem_mul_r by lia. ring.
Qed.

Lemma drop_take_append (w : nat) (s Y : string) :
  (w <= String.length s)%nat -> drop w (take w s ++ Y) = Y.
Proof.
  revert s. induction w as [|w IH]; intros s Hw.
  - reflexivity.
  - destruct s as [|c s]; simpl in Hw; [lia|].
    simpl. apply IH. lia.
Qed.

Lemma take_drop (w : nat) (s : string) : take w s ++ drop w s = s.
Proof.
  revert s. induction w as [|w IH]; intros s.
  - reflexivity.
  - destruct s as [|c s]; [reflexivity|]. simpl. now rewrite IH.
Qed.

Lemma length_drop (w : nat) (s : string) :
  String.length (drop w s) = (String.length s - w)%nat.
Proof.
  revert s. induction w as [|w IH]; intros s.
  - simpl. lia.
  - destruct s as [|c s]; [reflexivity|]. simpl. apply IH.
Qed.

(** Enumeration of the bytes below a bound. *)
Lemma below_nat (P : Z -> Prop) (n : nat) :
  (forall k, (k < n)%nat -> P (Z.of_nat k)) ->
  forall b, 0 <= b < Z.of_nat n -> P b.
Proof.
  intros H b Hb. rewrite <- (Z2Nat.id b) by lia. apply H. lia.
Qed.

Section Pieces.
Variable isP : Z -> bool.

(** Unquoting what [Quote] writes for a byte that is not part of a
    well-formed sequence. *)
Lemma unquote_hex_byte (b : Z) :
  0 <= b < 256 ->
  forall f Y buf,
  unquoteLoop (S f) ((chr backslash ++ "x" ++ hexDigits 2 b) ++ Y) buf
  = unquoteLoop f Y (buf ++ chr b).
Proof.
  intros Hb. pattern b. apply (below_nat _ 256%nat); [|exact Hb].
  clear b Hb. intros k Hk f Y buf.
  do 256 (destruct k as [|k]; [reflexivity|]).
  lia.
Qed.

(** Unquoting what [Quote] writes for a rune below [0x80]. *)
Lemma unquote_escaped_ascii (b : Z) :
  0 <= b < 128 ->
  forall f Y buf,
  unquoteLoop (S f) (escapedRune isP b ++ Y) buf
  = unquoteLoop f Y (buf ++ chr b).
Proof.
  intros Hb. pattern b. apply (below_nat _ 128%nat); [|exact Hb].
  clear b Hb. intros k Hk f Y buf.
  do 128 (destruct k as [|k]; [reflexivity|]).
  lia.
Qed.

End Pieces.

Lemma unquoteLoop_step (f : nat) (c0 : ascii) (t0 buf : string)
  (r : Z) (mb : bool) (rem : string) :
  byteZ c0 <> 34 -> byteZ c0 <> 10 ->
  UnquoteChar (String c0 t0) = Some (r, mb, rem) ->
  unquoteLoop (S f) (String c0 t0) buf
  = unquoteLoop f rem
      (if (r <? RuneSelf) || negb mb then buf ++ chr r
       else buf ++ EncodeRune r).
Proof.
  intros H34 H10 E. cbn [unquoteLoop]. rewrite E.
  destruct (Z.eqb_spec (byteZ c0) 34); [contradiction|].
  destruct (Z.eqb_spec (byteZ c0) 10); [contradiction|].
  reflexivity.
Qed.

Lemma unquote_u4 (r : Z) :
  0x80 <= r < 0x10000 -> ValidRune r = true ->
  forall f Y buf,
  unquoteLoop (S f) ((chr backslash ++ "u" ++ hexDigits 4 r) ++ Y) buf
  = unquoteLoop f Y (buf ++ EncodeRune r).
Proof.
  intros Hr Hv f Y buf.
  rewrite !append_assoc.
  change (chr backslash ++ "u" ++ hexDigits 4 r ++ Y)
    with (String (zbyte 92) (String (zbyte 117) (hexDigits 4 r ++ Y))).
  rewrite (unquoteLoop_step f _ _ buf r true Y).
  - unfold RuneSelf. destruct (Z.ltb_spec r 128); [lia|]. reflexivity.
  - discriminate.
  - discriminate.
  - change (UnquoteChar (String (zbyte 92)
                           (String (zbyte 117) (hexDigits 4 r ++ Y))))
      with (match parseHex 4 0 (hexDigits 4 r ++ Y) with
            | None => None
            | Some (v, t2) =>
                if negb (ValidRune v) then None else Some (v, true, t2)
            end).
    rewrite parseHex_hexDigits by lia.
    change (16 ^ Z.of_nat 4) with 65536. rewrite Z.mod_small by lia.
    change (0 * 65536 + r) with r.
    now rewrite Hv.
Qed.

Lemma unquote_u8 (r : Z) :
  0x10000 <= r <= 0x10FFFF -> ValidRune r = true ->
  forall f Y buf,
  unquoteLoop (S f) ((chr backslash ++ "U" ++ hexDigits 8 r) ++ Y) buf
  = unquoteLoop f Y (buf ++ EncodeRune r).
Proof.
  intros Hr Hv f Y buf.
  rewrite !append_assoc.
  change (chr backslash ++ "U" ++ hexDigits 8 r ++ Y)
    with (String (zbyte 92) (String (zbyte 85) (hexDigits 8 r ++ Y))).
  rewrite (unquoteLoop_step f _ _ buf r true Y).
  - unfold RuneSelf. destruct (Z.ltb_spec r 128); [lia|]. reflexivity.
  - discriminate.
  - discriminate.
  - change (UnquoteChar (String (zbyte 92)
                           (String (zbyte 85) (hexDigits 8 r ++ Y))))
      with (match parseHex 8 0 (hexDigits 8 r ++ Y) with
            | None => None
            | Some (v, t2) =>
                if negb (ValidRune v) then None else Some (v, true, t2)
            end).
    rewrite parseHex_hexDigits by lia.
    change (16 ^ Z.of_nat 8) with 4294967296. rewrite Z.mod_small by lia.
    change (0 * 4294967296 + r) with r.
    now rewrite Hv.
Qed.

(** Unquoting a well-formed sequence written as it is. *)
Lemma unquote_raw (s : string) (r : Z) (w : nat) :
  Decoded s r w -> (2 <= w)%nat ->
  forall f Y buf,
  unquoteLoop (S f) (take w s ++ Y) buf = unquoteLoop f Y (buf ++ take w s).
Proof.
  intros D Hw f Y buf.
  pose proof (decode_take s r w Y D Hw) as Ed.
  pose proof (Encode_Decoded s r w D Hw) as Ee.
  destruct (Decoded_rune s r w D Hw) as [Hr _].
  pose proof (Decoded_width s r w D) as Hlen.
  pose proof (drop_take_append w s Y (proj2 Hlen)) as Edrop.
  assert (Hc : exists c0 t, take w s ++ Y = String c0 t /\ 0x80 <= byteZ c0).
  { destruct D; try lia; cbn [take append]; eexists; eexists;
      (split; [reflexivity | lia]). }
  destruct Hc as [c0 [t [Es Hc0]]].
  rewrite Es in *.
  rewrite (unquoteLoop_step f c0 t buf r true Y).
  - unfold RuneSelf. destruct (Z.ltb_spec r 128); [lia|].
    cbn [orb negb]. now rewrite Ee.
  - lia.
  - lia.
  - cbn [UnquoteChar]. unfold RuneSelf.
    destruct (Z.eqb_spec (byteZ c0) 34); [lia|].
    destruct (Z.leb_spec 128 (byteZ c0)); [|lia].
    rewrite Ed, Edrop. reflexivity.
Qed.

Section RoundTrip.
Variable isP : Z -> bool.

Lemma EncodeRune_length (r : Z) : (1 <= String.length (EncodeRune r))%nat.
Proof.
  unfold EncodeRune.
  repeat match goal with
         | |- context [if ?b then _ else _] => destruct b
         end; simpl; lia.
Qed.

Lemma escapedRune_length (r : Z) :
  (1 <= String.length (escapedRune isP r))%nat.
Proof.
  unfold escapedRune.
  repeat match goal with
         | |- context [if ?b then _ else _] => destruct b
         end; try apply EncodeRune_length; simpl; lia.
Qed.

(** Unquoting what [Quote] writes for the rune of a well-formed
    sequence of two bytes or more. *)
Lemma unquote_escaped_multibyte (s : string) (r : Z) (w : nat) :
  Decoded s r w -> (2 <= w)%nat ->
  forall f Y buf,
  unquoteLoop (S f) (escapedRune isP r ++ Y) buf
  = unquoteLoop f Y (buf ++ take w s).
Proof.
  intros D Hw f Y buf.
  destruct (Decoded_rune s r w D Hw) as [Hr [Hv _]].
  pose proof (Encode_Decoded s r w D Hw) as Ee.
  unfold escapedRune, quoteChar, backslash.
  destruct (Z.eqb_spec r 34); [lia|]. destruct (Z.eqb_spec r 92); [lia|].
  cbn [orb].
  destruct (IsPrint isP r).
  { rewrite Ee. now apply (unquote_raw s r w). }
  repeat match goal with
         | |- context [r =? ?k] => destruct (Z.eqb_spec r k); [lia|]
         end.
  destruct (Z.ltb_spec r 32); [lia|]. cbn [orb].
  rewrite Hv. cbn [negb orb].
  destruct (Z.ltb_spec r 65536).
  - rewrite <- Ee. apply unquote_u4; [lia | exact Hv].
  - rewrite <- Ee. apply unquote_u8; [lia | exact Hv].
Qed.

(** One turn of the quoting loop, and the turn of the unquoting loop
    that undoes it. *)
Lemma quote_step (c0 : ascii) (t : string) :
  exists p w,
    (1 <= w <= String.length (String c0 t))%nat /\
    (1 <= String.length p)%nat /\
    (forall fuel, quoteLoop isP (S fuel) (String c0 t)
                  = p ++ quoteLoop isP fuel (drop w (String c0 t))) /\
    (forall f Y buf, unquoteLoop (S f) (p ++ Y) buf
                     = unquoteLoop f Y (buf ++ take w (String c0 t))).
Proof.
  pose proof (byteZ_range c0) as H0.
  destruct (Z_lt_le_dec (byteZ c0) 0x80) as [Hlo|Hhi].
  - exists (escapedRune isP (byteZ c0)), 1%nat.
    split; [simpl; lia|]. split; [apply escapedRune_length|]. split.
    + intros fuel. cbn [quoteLoop]. unfold RuneSelf, RuneError.
      destruct (Z.leb_spec 128 (byteZ c0)); [lia|].
      destruct (Z.eqb_spec (byteZ c0) 65533); [lia|].
      reflexivity.
    + intros f Y buf. cbn [take]. rewrite <- (chr_byteZ c0).
      apply unquote_escaped_ascii. lia.
  - pose proof (decode_cases c0 t) as D.
    destruct (DecodeRuneInString (String c0 t)) as [r w] eqn:Ed.
    cbn [fst snd] in D.
    destruct (Nat.eq_dec w 1) as [Ew|Nw].
    + subst w.
      assert (Er : r = RuneError) by (inversion D; subst; [lia | reflexivity]).
      subst r.
      exists (chr backslash ++ "x" ++ hexDigits 2 (byteZ c0)), 1%nat.
      split; [simpl; lia|]. split; [simpl; lia|]. split.
      * intros fuel. cbn [quoteLoop]. unfold RuneSelf.
        destruct (Z.leb_spec 128 (byteZ c0)); [|lia].
        rewrite Ed. reflexivity.
      * intros f Y buf. cbn [take]. rewrite <- (chr_byteZ c0).
        apply unquote_hex_byte. exact H0.
    + pose proof (Decoded_width _ _ _ D) as Hw.
      exists (escapedRune isP r), w.
      split; [exact Hw|]. split; [apply escapedRune_length|]. split.
      * intros fuel. cbn [quoteLoop]. unfold RuneSelf.
        destruct (Z.leb_spec 128 (byteZ c0)); [|lia].
        rewrite Ed.
        destruct (Nat.eqb_spec w 1); [contradiction|]. reflexivity.
      * intros f Y buf. apply (unquote_escaped_multibyte _ r w D). lia.
Qed.

Lemma unquoteLoop_mono (f : nat) :
  forall s buf res, unquoteLoop f s buf = Some res ->
  forall f', (f <= f')%nat -> unquoteLoop f' s buf = Some res.
Proof.
  induction f as [|f IH]; intros s buf res E f' Hf; [discriminate|].
  destruct f' as [|f']; [lia|].
  cbn [unquoteLoop] in *.
  destruct s as [|c0 t0]; [discriminate|].
  destruct (byteZ c0 =? 34); [exact E|].
  destruct (UnquoteChar (String c0 t0)) as [[[r mb] rem]|]; [|discriminate].
  destruct (byteZ c0 =? 10); [discriminate|].
  apply (IH _ _ _ E). lia.
Qed.

Lemma roundtrip_loop (n : nat) :
  forall s, (String.length s <= n)%nat ->
  forall X buf res f, (f <= String.length X)%nat ->
  unquoteLoop f X (buf ++ s) = Some res ->
  exists f', (f' <= String.length (quoteLoop isP n s ++ X))%nat /\
             unquoteLoop f' (quoteLoop isP n s ++ X) buf = Some res.
Proof.
  induction n as [|n IH]; intros s Hs X buf res f Hf E.
  - destruct s; [|simpl in Hs; lia]. rewrite append_nil_r in E.
    exists f. split; [exact Hf | exact E].
  - destruct s as [|c0 t].
    + rewrite append_nil_r in E. exists f. split; [exact Hf | exact E].
    + destruct (quote_step c0 t) as [p [w [Hw [Hp [Eq Eu]]]]].
      rewrite Eq.
      destruct (IH (drop w (String c0 t))) with
        (X := X) (buf := buf ++ take w (String c0 t)) (res := res) (f := f)
        as [f1 [Hf1 E1]].
      * rewrite length_drop.
        change (String.length (String c0 t)) with (S (String.length t)) in *.
        lia.
      * exact Hf.
      * now rewrite append_assoc, take_drop.
      * exists (S f1). rewrite append_assoc. split.
        -- rewrite length_append. lia.
        -- now rewrite Eu.
Qed.

(** Unquoting a quoted string gives the string back. *)
Lemma Unquote_Quote (s : string) : Unquote (Quote isP s) = Some s.
Proof.
  unfold Quote.
  destruct (roundtrip_loop (String.length s) s (Nat.le_refl _)
              (chr quoteChar) EmptyString (s, EmptyString) 1%nat)
    as [f' [Hf' E']].
  - simpl. lia.
  - reflexivity.
  - change (chr quoteChar ++ quoteLoop isP (String.length s) s ++ chr quoteChar)
      with (String (zbyte 34)
              (quoteLoop isP (String.length s) s ++ chr quoteChar)).
    destruct (quoteLoop isP (String.length s) s ++ chr quoteChar)
      as [|c t] eqn:Eb.
    + destruct f'; [discriminate E' | simpl in Hf'; lia].
    + unfold Unquote.
      change (byteZ (zbyte 34) =? 34) with true. cbn iota.
      rewrite (unquoteLoop_mono f' _ _ _ E').
      * reflexivity.
      * simpl in *. lia.
Qed.

End RoundTrip.

Lemma escapedOnly_hexDigits (n : nat) (r : Z) (X : string) :
  escapedOnly (hexDigits n r ++ X) = escapedOnly X.
Proof.
  induction n as [|n IH]; [reflexivity|].
  cbn [hexDigits]. rewrite append_assoc. cbn [chr append escapedOnly].
  set (d := (r / 16 ^ Z.of_nat n) mod 16).
  assert (Hd : 0 <= d < 16) by (apply Z.mod_pos_bound; lia).
  rewrite byteZ_zbyte by (unfold lowerhex; destruct (d <? 10); lia).
  cbv zeta. unfold lowerhex.
  destruct (Z.ltb_spec d 10);
    repeat match goal with
           | |- context [?a =? ?b] => destruct (Z.eqb_spec a b); [lia|]
           | |- context [?a <? ?b] => destruct (Z.ltb_spec a b); [lia|]
           end; exact IH.
Qed.

Lemma escapedOnly_high (c : ascii) (X : string) :
  0x80 <= byteZ c -> escapedOnly (String c X) = escapedOnly X.
Proof.
  intros Hc. cbn [escapedOnly]. cbv zeta.
  repeat match goal with
         | |- context [?a =? ?b] => destruct (Z.eqb_spec a b); [lia|]
         | |- context [?a <? ?b] => destruct (Z.ltb_spec a b); [lia|]
         end.
  reflexivity.
Qed.

Lemma escapedOnly_raw (s : string) (r : Z) (w : nat) (X : string) :
  Decoded s r w -> (2 <= w)%nat ->
  escapedOnly (take w s ++ X) = escapedOnly X.
Proof.
  intros D Hw. destruct D; try lia; cbn [take append];
    rewrite !escapedOnly_high by lia; reflexivity.
Qed.

Section Escaped.
Variable isP : Z -> bool.

Lemma escapedOnly_hex_byte (b : Z) :
  0 <= b < 256 ->
  forall X,
  escapedOnly ((chr backslash ++ "x" ++ hexDigits 2 b) ++ X) = escapedOnly X.
Proof.
  intros Hb X. rewrite !append_assoc.
  change (escapedOnly (chr backslash ++ "x" ++ hexDigits 2 b ++ X))
    with (escapedOnly (hexDigits 2 b ++ X)).
  apply escapedOnly_hexDigits.
Qed.

Lemma escapedOnly_ascii (b : Z) :
  0 <= b < 128 ->
  forall X, escapedOnly (escapedRune isP b ++ X) = escapedOnly X.
Proof.
  intros Hb. pattern b. apply (below_nat _ 128%nat); [|exact Hb].
  clear b Hb. intros k Hk X.
  do 128 (destruct k as [|k]; [reflexivity|]).
  lia.
Qed.

Lemma escapedOnly_multibyte (s : string) (r : Z) (w : nat) (X : string) :
  Decoded s r w -> (2 <= w)%nat ->
  escapedOnly (escapedRune isP r ++ X) = escapedOnly X.
Proof.
  intros D Hw.
  destruct (Decoded_rune s r w D Hw) as [Hr [Hv _]].
  pose proof (Encode_Decoded s r w D Hw) as Ee.
  unfold escapedRune, quoteChar, backslash.
  destruct (Z.eqb_spec r 34); [lia|]. destruct (Z.eqb_spec r 92); [lia|].
  cbn [orb].
  destruct (IsPrint isP r).
  { rewrite Ee. now apply (escapedOnly_raw s r w). }
  repeat match goal with
         | |- context [r =? ?k] => destruct (Z.eqb_spec r k); [lia|]
         end.
  destruct (Z.ltb_spec r 32); [lia|]. cbn [orb].
  rewrite Hv. cbn [negb orb].
  destruct (r <? 65536); rewrite !append_assoc.
  - change (escapedOnly (chr 92 ++ "u" ++ hexDigits 4 r ++ X))
      with (escapedOnly (hexDigits 4 r ++ X)).
    apply escapedOnly_hexDigits.
  - change (escapedOnly (chr 92 ++ "U" ++ hexDigits 8 r ++ X))
      with (escapedOnly (hexDigits 8 r ++ X)).
    apply escapedOnly_hexDigits.
Qed.

(** Between its quotes, a quoted string holds no control byte and no
    quote that is not escaped. *)
Lemma escapedOnly_quoteLoop (n : nat) :
  forall s X, escapedOnly (quoteLoop isP n s ++ X) = escapedOnly X.
Proof.
  induction n as [|n IH]; intros s X; [reflexivity|].
  destruct s as [|c0 t]; [reflexivity|].
  cbn [quoteLoop].
  pose proof (byteZ_range c0) as H0.
  unfold RuneSelf.
  destruct (Z.leb_spec 128 (byteZ c0)) as [Hhi|Hlo].
  - pose proof (decode_cases c0 t) as D.
    destruct (DecodeRuneInString (String c0 t)) as [r w] eqn:Ed.
    cbn [fst snd] in D.
    destruct (Nat.eqb_spec w 1) as [Ew|Nw].
    + subst w.
      assert (Er : r = RuneError) by (inversion D; subst; [lia | reflexivity]).
      subst r. cbn [andb]. change (RuneError =? RuneError) with true.
      cbn iota. rewrite append_assoc, escapedOnly_hex_byte by exact H0.
      apply IH.
    + cbn [andb]. rewrite append_assoc.
      pose proof (Decoded_width _ _ _ D) as Hw.
      rewrite (escapedOnly_multibyte _ r w _ D) by lia.
      apply IH.
  - unfold RuneError.
    destruct (Z.eqb_spec (byteZ c0) 65533); [lia|].
    rewrite andb_false_r. rewrite append_assoc.
    rewrite escapedOnly_ascii by lia. apply IH.
Qed.

End Escaped.

(** No rune from [0x80] up is one of the six characters. *)
Lemma isQuotingRune_high (r : Z) : 0x80 <= r -> isQuotingRune r = false.
Proof. unfold isQuotingRune. lia. Qed.

Lemma bytes_cons (c : ascii) (t : string) :
  bytes (String c t) = byteZ c :: bytes t.
Proof. reflexivity. Qed.

Lemma range_quoting (n : nat) :
  forall s, (String.length s <= n)%nat ->
  existsb isQuotingRune (rangeFrom n s) = existsb isQuotingRune (bytes s).
Proof.
  induction n as [|n IH]; intros s Hs.
  - destruct s; [reflexivity | simpl in Hs; lia].
  - destruct s as [|c0 t]; [reflexivity|].
    cbn [rangeFrom].
    pose proof (decode_cases c0 t) as D.
    destruct (DecodeRuneInString (String c0 t)) as [r w] eqn:Ed.
    cbn [fst snd] in D. cbn [existsb].
    change (String.length (String c0 t)) with (S (String.length t)) in Hs.
    assert (Hr : (2 <= w)%nat -> 0x80 <= r).
    { intros Hw. pose proof (Decoded_rune _ _ _ D Hw). lia. }
    inversion D; subst; cbn [drop]; rewrite ?bytes_cons; cbn [existsb];
      rewrite IH by (cbn [String.length] in Hs |- *; lia);
      rewrite ?(isQuotingRune_high (byteZ _)) by lia;
      try reflexivity.
    all: rewrite isQuotingRune_high
           by first [unfold RuneError; lia | apply Hr; lia];
         reflexivity.
Qed.

(** [needsQuoting] sees one of its six characters among the runes
    exactly when the string holds the byte. *)
Lemma needsQuoting_bytes (s : string) :
  needsQuoting s = existsb isQuotingRune (bytes s).
Proof. unfold needsQuoting, range. now apply range_quoting. Qed.

Lemma isQuotingRune_quotingBytes (b : Z) :
  isQuotingRune b = existsb (Z.eqb b) quotingBytes.
Proof.
  unfold isQuotingRune, quotingBytes. cbn [existsb].
  now rewrite orb_false_r, <- !orb_assoc.
Qed.

Lemma needsQuoting_holdsQuotingByte (s : string) :
  needsQuoting s = holdsQuotingByte s.
Proof.
  rewrite needsQuoting_bytes. unfold holdsQuotingByte.
  induction (bytes s) as [|b l IH]; [reflexivity|].
  cbn [existsb]. now rewrite IH, isQuotingRune_quotingBytes.
Qed.

End Quoting.

Section StringValues.
Context {rt : GoRuntime}.

(** C3.  A string value that holds none of the six bytes is rendered
    as it is.  Otherwise it is rendered between double quotes, as a
    literal in which no double quote and no control byte stands
    unescaped; and unquoting that literal gives the string back. *)
Theorem string_value_is_verbatim_or_quoted_and_unquotes (s : string) :
  let body := Strconv.quoteLoop isPrintTable (String.length s) s in
  formatValue (StringValue s)
  = (if holdsQuotingByte s then chr 34 ++ body ++ chr 34 else s) /\
  escapedOnly body = true /\
  Strconv.Unquote (chr 34 ++ body ++ chr 34) = Some s.
Proof.
  cbv zeta. split; [|split].
  - unfold formatValue. rewrite needsQuoting_holdsQuotingByte. reflexivity.
  - rewrite <- (append_nil_r (Strconv.quoteLoop _ _ _)).
    apply escapedOnly_quoteLoop.
  - apply Unquote_Quote.
Qed.

End StringValues.

(** * Further properties of the code *)

(** ** The attribute renderer *)

Section MoreRendering.
Context {rt : GoRuntime}.

(** X1.  Without a replacement hook, an attribute that is neither
    empty nor a group is appended as one pair whose key is the group
    path in reverse order, then the attribute's key, joined by dots,
    whatever the number of groups. *)
Theorem scalar_attribute_key_is_reversed_group_path (fuel : nat)
  (h : ColorHandler.t) (buf : string) (a : Attr) (groups : list string) :
  ReplaceAttr (ColorHandler.opts h) = None ->
  scalarAttr a = true ->
  ColorHandler.appendAttr (S fuel) h buf a groups
  = Some (buf ++ colorPurple
              ++ String.concat "." (rev groups ++ [Key a])
              ++ colorReset ++ "=" ++ formatValue (Val a)).
Proof.
  unfold scalarAttr. intros Hn Hs.
  apply andb_true_iff in Hs. destruct Hs as [He Hg].
  apply negb_true_iff in He, Hg.
  simpl. rewrite He, Hn, groupedKey_rev.
  destruct (Val a); try reflexivity. discriminate Hg.
Qed.

Lemma appendGroup_mono (step step' : string -> Attr -> option string)
  (l : list Attr) :
  (forall buf ga r, step buf ga = Some r -> step' buf ga = Some r) ->
  forall i buf r,
  ColorHandler.appendGroup step i buf l = Some r ->
  ColorHandler.appendGroup step' i buf l = Some r.
Proof.
  intros Hs. induction l as [|ga l IH]; intros i buf r; simpl.
  - trivial.
  - destruct (step _ ga) as [r1|] eqn:E1; [|discriminate].
    rewrite (Hs _ _ _ E1). apply IH.
Qed.

(** A result reached within some recursion depth is the result at any
    greater depth. *)
Lemma appendAttr_mono (fuel : nat) (h : ColorHandler.t) :
  forall buf a groups r,
  ColorHandler.appendAttr fuel h buf a groups = Some r ->
  forall fuel', (fuel <= fuel')%nat ->
  ColorHandler.appendAttr fuel' h buf a groups = Some r.
Proof.
  induction fuel as [|fuel IH]; intros buf a groups r E fuel' Hf;
    [discriminate|].
  destruct fuel' as [|fuel']; [lia|].
  simpl in *.
  destruct (isEmptyAttr a); [exact E|].
  destruct (match ReplaceAttr (ColorHandler.opts h) with
            | Some _ => _
            | None => false
            end); [exact E|].
  destruct (Val _); try exact E.
  destruct l; [exact E|].
  revert E. apply appendGroup_mono.
  intros buf' ga r' E'. apply (IH _ _ _ _ E'). lia.
Qed.

(** X2.  With no replacement hook, or one that does not deepen
    attributes, rendering an attribute ends: a recursion depth above
    the nesting depth of the attribute gives a result, which extends
    the buffer and is the same at every greater depth. *)
Theorem rendering_ends_within_nesting_depth (fuel : nat) (h : ColorHandler.t)
  (buf : string) (a : Attr) (groups : list string) :
  hook_shrinks (ColorHandler.opts h) ->
  (Attr_depth a < fuel)%nat ->
  exists frag,
    forall fuel', (fuel <= fuel')%nat ->
    ColorHandler.appendAttr fuel' h buf a groups = Some (buf ++ frag).
Proof.
  intros Hh Hd.
  destruct (appendAttr_total fuel h Hh buf a groups Hd) as [r Er].
  destruct (appendAttr_prefix fuel h buf a groups r Er) as [frag ->].
  exists frag. intros fuel' Hf. exact (appendAttr_mono _ _ _ _ _ _ Er _ Hf).
Qed.

(** X3.  With a hook that answers every attribute with a group in
    which at least one attribute is not the empty attribute, rendering
    an attribute that is not empty never ends, whatever the recursion
    depth allowed; nor does handling a record that holds such an
    attribute, so nothing is written for it. *)
Theorem nesting_hook_never_returns (f : list string -> Attr -> Attr)
  (h : ColorHandler.t) :
  ReplaceAttr (ColorHandler.opts h) = Some f ->
  hook_nests f ->
  (forall fuel buf a groups,
     isEmptyAttr a = false ->
     ColorHandler.appendAttr fuel h buf a groups = None) /\
  (forall fuel ctx r st,
     existsb (fun a => negb (isEmptyAttr a)) (rAttrs r) = true ->
     ColorHandler.Handle fuel h ctx r st = None).
Proof.
  intros Hf Hn. split.
  - exact (appendAttr_nests f h Hf Hn).
  - exact (Handle_nests f h Hf Hn).
Qed.

(** X4.  Rendering never alters what the buffer holds already: the
    result is the buffer followed by text that depends on the buffer
    only through whether it is empty. *)
Theorem rendering_only_appends (fuel : nat) (h : ColorHandler.t)
  (buf : string) (a : Attr) (groups : list string) (r : string) :
  ColorHandler.appendAttr fuel h buf a groups = Some r ->
  exists frag,
    r = buf ++ frag /\
    forall buf', isEmpty buf' = isEmpty buf ->
      ColorHandler.appendAttr fuel h buf' a groups = Some (buf' ++ frag).
Proof.
  intros E. destruct (appendAttr_frag fuel h buf a groups r E) as [frag Hf].
  exists frag. split; [|exact Hf].
  specialize (Hf buf eq_refl). congruence.
Qed.

End MoreRendering.

Section Groups.
Context {rt : GoRuntime}.

Lemma scalar_appendAttr (fuel : nat) (h : ColorHandler.t) (buf : string)
  (a : Attr) (groups : list string) :
  ReplaceAttr (ColorHandler.opts h) = None ->
  scalarAttr a = true ->
  ColorHandler.appendAttr (S fuel) h buf a groups
  = Some (buf ++ pairText groups a).
Proof.
  unfold scalarAttr, pairText. intros Hn Hs.
  apply andb_true_iff in Hs. destruct Hs as [He Hg].
  apply negb_true_iff in He, Hg.
  simpl. rewrite He, Hn.
  destruct (Val a); try reflexivity. discriminate Hg.
Qed.

Lemma appendGroup_scalars (fuel : nat) (h : ColorHandler.t)
  (gs : list string) :
  ReplaceAttr (ColorHandler.opts h) = None ->
  forall l i buf,
  forallb scalarAttr l = true ->
  ColorHandler.appendGroup
    (fun buf ga => ColorHandler.appendAttr (S fuel) h buf ga gs) i buf l
  = Some (buf
          ++ (match l with
              | [] => EmptyString
              | _ :: _ =>
                  if (0 <? i)%nat || negb (isEmpty buf)
                  then " " else EmptyString
              end)
          ++ String.concat " " (map (pairText gs) l)).
Proof.
  intros Hn. induction l as [|a l IH]; intros i buf Hl.
  - simpl. now rewrite append_nil_r.
  - simpl in Hl. apply andb_true_iff in Hl. destruct Hl as [Ha Hl].
    cbn [ColorHandler.appendGroup].
    set (c := (0 <? i)%nat || negb (isEmpty buf)).
    rewrite scalar_appendAttr by assumption.
    rewrite IH by exact Hl.
    change (0 <? S i)%nat with true. cbn [orb].
    f_equal.
    destruct l as [|b l].
    + cbn [map String.concat append]. rewrite !append_nil_r.
      destruct c; [now rewrite append_assoc | reflexivity].
    + change (String.concat " " (map (pairText gs) (a :: b :: l)))
        with (pairText gs a ++ " "
                ++ String.concat " " (map (pairText gs) (b :: l))).
      destruct c; now rewrite ?append_assoc.
Qed.

Lemma appendAttr_group (fuel : nat) (h : ColorHandler.t) (buf key : string)
  (x : Attr) (l : list Attr) (groups : list string) :
  ReplaceAttr (ColorHandler.opts h) = None ->
  ColorHandler.appendAttr (S fuel) h buf (key, GroupValue (x :: l)) groups
  = ColorHandler.appendGroup
      (fun buf ga => ColorHandler.appendAttr fuel h buf ga (groups ++ [key]))
      O buf (x :: l).
Proof.
  intros Hn. cbn [ColorHandler.appendAttr].
  assert (He : isEmptyAttr (key, GroupValue (x :: l)) = false).
  { unfold isEmptyAttr. simpl. apply andb_false_r. }
  rewrite He, Hn. reflexivity.
Qed.

(** X5.  Without a replacement hook, a group whose members are
    neither empty nor groups is flattened: its members are appended
    as pairs under the group path extended by the group's key, with
    one space between them, and one space before the first exactly
    when the buffer is not empty. *)
Theorem group_of_scalars_is_flattened (fuel : nat) (h : ColorHandler.t)
  (buf key : string) (x : Attr) (l : list Attr) (groups : list string) :
  ReplaceAttr (ColorHandler.opts h) = None ->
  forallb scalarAttr (x :: l) = true ->
  ColorHandler.appendAttr (S (S fuel)) h buf (key, GroupValue (x :: l)) groups
  = Some (buf ++ (if isEmpty buf then EmptyString else " ")
              ++ String.concat " "
                   (map (pairText (groups ++ [key])) (x :: l))).
Proof.
  intros Hn Hl.
  rewrite appendAttr_group by exact Hn.
  rewrite (appendGroup_scalars fuel h (groups ++ [key]) Hn (x :: l) O buf Hl).
  cbn [Nat.ltb Nat.leb orb]. now destruct (isEmpty buf).
Qed.

Lemma spaces_snoc (n : nat) : spaces n ++ " " = " " ++ spaces n.
Proof.
  induction n as [|n IH]; [reflexivity|].
  cbn [spaces]. rewrite append_assoc, IH. reflexivity.
Qed.

(** X6.  [Handle] writes the separator of a record attribute before
    it knows whether the attribute renders anything: a record whose
    attributes are all empty gives a line with one space for each of
    them after the head, and then the newline. *)
Theorem empty_record_attributes_leave_their_spaces (fuel : nat)
  (h : ColorHandler.t) (r : LogRecord) :
  forallb isEmptyAttr (rAttrs r) = true ->
  ColorHandler.formatLine (S fuel) h r
  = Some (ColorHandler.lineHead h r
            ++ spaces (List.length (rAttrs r)) ++ chr 10).
Proof.
  intros He. unfold ColorHandler.formatLine.
  assert (HR : forall l buf,
             forallb isEmptyAttr l = true ->
             ColorHandler.appendRecordAttrs (S fuel) h buf l
             = Some (buf ++ spaces (List.length l))).
  { induction l as [|a l IHl]; intros buf Hl.
    - simpl. now rewrite append_nil_r.
    - simpl in Hl. apply andb_true_iff in Hl. destruct Hl as [Ha Hl].
      cbn [ColorHandler.appendRecordAttrs ColorHandler.appendAttr].
      rewrite Ha. rewrite IHl by exact Hl.
      cbn [List.length spaces]. now rewrite append_assoc. }
  rewrite HR by exact He. now rewrite append_assoc.
Qed.

(** X7.  [WithAttrs] writes a separator only after text: binding
    attributes that are all empty, or none at all, leaves the
    pre-rendered text as it is and only lengthens the list of bound
    attributes. *)
Theorem binding_empty_attributes_adds_no_text (fuel : nat)
  (h : ColorHandler.t) (l : list Attr) :
  forallb isEmptyAttr l = true ->
  ColorHandler.WithAttrs (S fuel) h l
  = Some (ColorHandler.mk (ColorHandler.opts h) (ColorHandler.output h)
            (ColorHandler.mu h) (ColorHandler.attrs h ++ l)
            (ColorHandler.groups h) (ColorHandler.preformat h)).
Proof.
  intros He. unfold ColorHandler.WithAttrs.
  assert (HP : ColorHandler.preformatAttrs (S fuel) h EmptyString l
               = Some EmptyString).
  { induction l as [|a l IHl]; [reflexivity|].
    simpl in He. apply andb_true_iff in He. destruct He as [Ha Hl].
    cbn [ColorHandler.preformatAttrs isEmpty negb ColorHandler.appendAttr].
    rewrite Ha. now apply IHl. }
  now rewrite HP.
Qed.

Lemma WithAttrs_keeps (fuel : nat) (h h' : ColorHandler.t) (l : list Attr) :
  ColorHandler.WithAttrs fuel h l = Some h' ->
  ColorHandler.opts h' = ColorHandler.opts h /\
  ColorHandler.output h' = ColorHandler.output h /\
  ColorHandler.mu h' = ColorHandler.mu h.
Proof.
  unfold ColorHandler.WithAttrs.
  destruct (ColorHandler.preformatAttrs fuel h EmptyString l) as [buf|];
    [|discriminate].
  intros E. injection E as <-. cbn. repeat split.
Qed.

(** X8.  The handler [WithAttrs] returns has the options, the writer,
    the mutex and the group path of the one it was called on; its
    bound attributes are the old ones followed by the new, and its
    pre-rendered text starts with the old text. *)
Theorem WithAttrs_extends_the_receiver (fuel : nat) (h h' : ColorHandler.t)
  (l : list Attr) :
  ColorHandler.WithAttrs fuel h l = Some h' ->
  ColorHandler.opts h' = ColorHandler.opts h /\
  ColorHandler.output h' = ColorHandler.output h /\
  ColorHandler.mu h' = ColorHandler.mu h /\
  ColorHandler.groups h' = ColorHandler.groups h /\
  ColorHandler.attrs h' = (ColorHandler.attrs h ++ l)%list /\
  exists text,
    ColorHandler.preformat h' = ColorHandler.preformat h ++ text.
Proof.
  unfold ColorHandler.WithAttrs.
  destruct (ColorHandler.preformatAttrs fuel h EmptyString l) as [buf|];
    [|discriminate].
  intros E. injection E as <-. cbn.
  repeat split.
  destruct (isEmpty buf); cbn [negb].
  - exists EmptyString. now rewrite append_nil_r.
  - destruct (isEmpty (ColorHandler.preformat h)); cbn [negb].
    + now exists buf.
    + exists (" " ++ buf). now rewrite append_assoc.
Qed.

(** X9.  Binding group names one after the other appends the names
    that are not empty to the group path, in order, and changes
    nothing else: the pre-rendered text of attributes bound earlier
    stays as it was rendered. *)
Theorem WithGroup_sequence (names : list string) (h : ColorHandler.t) :
  fold_left ColorHandler.WithGroup names h
  = ColorHandler.mk (ColorHandler.opts h) (ColorHandler.output h)
      (ColorHandler.mu h) (ColorHandler.attrs h)
      (ColorHandler.groups h ++ filter (fun n => negb (isEmpty n)) names)
      (ColorHandler.preformat h).
Proof.
  revert h. induction names as [|n names IH]; intros h.
  - simpl. rewrite app_nil_r. now destruct h.
  - cbn [fold_left filter]. rewrite IH.
    unfold ColorHandler.WithGroup.
    destruct (isEmpty n); cbn [negb].
    + reflexivity.
    + cbn. now rewrite <- app_assoc.
Qed.

End Groups.

Section CallSite.
Context {rt : GoRuntime}.

(** X10.  When the last slash of the frame's file path is past its
    first byte, the call site is the part of the path after that
    slash, a colon, and the line number in decimal. *)
Theorem formatSource_after_last_slash (pc : Z) (i : nat) :
  lastSlashAt (File (callersFrame pc)) i = true ->
  ColorHandler.formatSource pc
  = drop (i + 1) (File (callersFrame pc)) ++ ":"
      ++ itoa (Line (callersFrame pc)).
Proof.
  unfold lastSlashAt, ColorHandler.formatSource.
  set (file := File (callersFrame pc)).
  intros Hl.
  apply andb_true_iff in Hl. destruct Hl as [Hl Hno].
  apply andb_true_iff in Hl. destruct Hl as [Hl H47].
  apply andb_true_iff in Hl. destruct Hl as [H1 Hlen].
  apply Nat.leb_le in H1. apply Nat.ltb_lt in Hlen. apply Z.eqb_eq in H47.
  assert (Hne : isEmpty file = false).
  { destruct file; [simpl in Hlen; lia | reflexivity]. }
  rewrite Hne. cbn [negb].
  rewrite (shortFrom_last_slash (String.length file - 1) i file file).
  - reflexivity.
  - lia.
  - exact H47.
  - intros j Hj. rewrite forallb_forall in Hno.
    specialize (Hno j). rewrite in_seq in Hno.
    assert (Hb : negb (byteAt file j =? 47) = true) by (apply Hno; lia).
    apply negb_true_iff, Z.eqb_neq in Hb. exact Hb.
Qed.

End CallSite.

Lemma formatSource_after_last_slash_witness :
  lastSlashAt (File (callersFrame (GoRuntime := sampleRuntime) 2)) 8 = true /\
  ColorHandler.formatSource (rt := sampleRuntime) 2 = "server.go:42".
Proof.
  split; [reflexivity|].
  exact (formatSource_after_last_slash (rt := sampleRuntime) 2 8 eq_refl).
Defined.

(** ** The context handler *)

Lemma contextAttrs_app (k1 k2 : list ContextKey) (ctx : Context) :
  contextAttrs (k1 ++ k2) ctx = (contextAttrs k1 ctx ++ contextAttrs k2 ctx)%list.
Proof. unfold contextAttrs. now rewrite filter_app, map_app. Qed.

(** X11.  The attributes found for a list of keys followed by another
    are those found for the first followed by those found for the
    second, and there are never more attributes than keys: a key
    listed twice is looked up twice. *)
Theorem extract_follows_key_order (k1 k2 : list ContextKey) (ctx : Context) :
  ContextHandler.extract (k1 ++ k2) ctx
  = (ContextHandler.extract k1 ctx ++ ContextHandler.extract k2 ctx)%list /\
  (List.length (ContextHandler.extract k1 ctx) <= List.length k1)%nat.
Proof.
  rewrite !extract_is_contextAttrs. split; [apply contextAttrs_app|].
  unfold contextAttrs. rewrite length_map. apply filter_length_le.
Qed.

Lemma contextAttrs_cons (key : ContextKey) (keys : list ContextKey)
  (ctx : Context) :
  contextAttrs (key :: keys) ctx
  = ((if any_is_nil (ctx_Value ctx key) then []
      else [slog_Any key (ctx_Value ctx key)])
     ++ contextAttrs keys ctx)%list.
Proof.
  unfold contextAttrs. cbn [filter].
  destruct (any_is_nil (ctx_Value ctx key)); reflexivity.
Qed.

Lemma contextAttrs_WithContext (keys : list ContextKey) (ctx : Context)
  (k : ContextKey) (v : any) :
  contextAttrs keys (WithContext ctx k v)
  = flat_map
      (fun key =>
         if String.eqb k key
         then (if any_is_nil v then [] else [slog_Any key v])
         else contextAttrs [key] ctx)
      keys.
Proof.
  induction keys as [|key keys IH]; [reflexivity|].
  rewrite contextAttrs_cons, IH. cbn [flat_map]. f_equal.
  change (ctx_Value (WithContext ctx k v) key)
    with (if String.eqb k key then v else ctx_Value ctx key).
  destruct (String.eqb k key).
  - reflexivity.
  - rewrite contextAttrs_cons. now rewrite app_nil_r.
Qed.

(** X12.  After [WithContext(ctx, k, v)], every listed key equal to
    [k] gives the attribute of [v], or nothing when [v] is nil,
    whatever [ctx] held for [k]; every other key gives what it gave
    for [ctx]. *)
Theorem extract_after_WithContext (keys : list ContextKey) (ctx : Context)
  (k : ContextKey) (v : any) :
  ContextHandler.extract keys (WithContext ctx k v)
  = flat_map
      (fun key =>
         if String.eqb k key
         then (if any_is_nil v then [] else [slog_Any key v])
         else ContextHandler.extract [key] ctx)
      keys.
Proof.
  rewrite extract_is_contextAttrs, contextAttrs_WithContext.
  apply flat_map_ext. intros key.
  destruct (String.eqb k key); [reflexivity|].
  now rewrite extract_is_contextAttrs.
Qed.

Section Unlisted.
Context {H : Type} {inner : Handler H}.

(** X13.  A value put in the context under a key the handler does not
    list changes nothing of the record handed on. *)
Theorem unlisted_key_is_ignored (h : ContextHandler.t H) (ctx : Context)
  (k : ContextKey) (v : any) (r : LogRecord) :
  existsb (String.eqb k) (ContextHandler.keys h) = false ->
  ContextHandler.inject h (WithContext ctx k v) r
  = ContextHandler.inject h ctx r.
Proof.
  intros Hk. unfold ContextHandler.inject.
  assert (E : ContextHandler.extract (ContextHandler.keys h)
                (WithContext ctx k v)
              = ContextHandler.extract (ContextHandler.keys h) ctx).
  { rewrite !extract_is_contextAttrs, contextAttrs_WithContext.
    induction (ContextHandler.keys h) as [|key keys IH]; [reflexivity|].
    cbn [existsb] in Hk. apply orb_false_iff in Hk. destruct Hk as [Hk1 Hk2].
    cbn [flat_map]. rewrite Hk1, IH by exact Hk2.
    change (key :: keys) with ([key] ++ keys)%list.
    now rewrite (contextAttrs_app [key] keys ctx). }
  now rewrite E.
Qed.

End Unlisted.

Lemma unlisted_key_is_ignored_witness :
  existsb (String.eqb SessionIDKey)
    (ContextHandler.keys (initHandler (rt := sampleRuntime) 0 0 [])) = false /\
  ContextHandler.inject (initHandler (rt := sampleRuntime) 0 0 [])
    (WithContext sampleContext SessionIDKey (a_string "s-1")) sampleRecord
  = ContextHandler.inject (initHandler (rt := sampleRuntime) 0 0 [])
      sampleContext sampleRecord.
Proof.
  split; [reflexivity|].
  exact (unlisted_key_is_ignored
           (initHandler (rt := sampleRuntime) 0 0 []) sampleContext
           SessionIDKey (a_string "s-1") sampleRecord eq_refl).
Defined.

(** ** Configuration *)

Lemma contextKeys_WithContextKeys (kss : list (list ContextKey)) (c : config) :
  contextKeys (fold_left (fun c opt => opt c) (map WithContextKeys kss) c)
  = (contextKeys c ++ List.concat kss)%list.
Proof.
  revert c. induction kss as [|ks kss IH]; intros c.
  - simpl. now rewrite app_nil_r.
  - cbn [map fold_left List.concat]. rewrite IH.
    unfold WithContextKeys at 1. cbn [contextKeys]. now rewrite app_assoc.
Qed.

Section Config.
Context {rt : GoRuntime}.

(** X14.  [WithContextKeys] adds to the keys that are there: after
    any number of them the handler looks up the three default keys
    first, then the added keys in the order they were given. *)
Theorem WithContextKeys_accumulate (stdout mu : nat)
  (kss : list (list ContextKey)) :
  contextKeys (initConfig stdout (map WithContextKeys kss))
  = ([TraceIDKey; UserIDKey; RequestIDKey] ++ List.concat kss)%list /\
  ContextHandler.keys (initHandler stdout mu (map WithContextKeys kss))
  = ([TraceIDKey; UserIDKey; RequestIDKey] ++ List.concat kss)%list.
Proof.
  split.
  - unfold initConfig. now rewrite contextKeys_WithContextKeys.
  - unfold initHandler, ContextHandler.NewContextHandler.
    cbn [ContextHandler.keys]. now rewrite contextKeys_WithContextKeys.
Qed.

(** X15.  In the development environment the timestamp of a line is
    the record's time in the configured time format: the head of the
    line is that stamp, in gray and followed by a space, and then the
    head of the same record without a time. *)
Theorem init_timestamp_uses_configured_format (stdout mu : nat)
  (opts : list Option) (r : LogRecord) :
  env (initConfig stdout opts) = Development ->
  rTime r <> 0 ->
  let ch := ContextHandler.handler (initHandler stdout mu opts) in
  ColorHandler.lineHead ch r
  = (colorGray
       ++ timeFormat (cfgTimeFormat (initConfig stdout opts)) (rTime r)
       ++ colorReset ++ " ")
    ++ ColorHandler.lineHead ch
         (mkRecord 0 (rLevel r) (rMessage r) (rPC r) (rAttrs r)).
Proof.
  intros He Ht ch.
  unfold ColorHandler.lineHead.
  cbn [rTime rLevel rMessage rPC rAttrs].
  unfold Time_IsZero.
  destruct (Z.eqb_spec (rTime r) 0) as [E|_]; [contradiction|].
  change (0 =? 0) with true. cbn [negb].
  assert (Eh : ReplaceAttr (ColorHandler.opts ch)
               = Some (initReplaceAttr (initConfig stdout opts)))
    by reflexivity.
  rewrite Eh.
  assert (Ev : Value_String
                 (Val (initReplaceAttr (initConfig stdout opts) []
                         (slog_Time TimeKey (rTime r))))
               = timeFormat (cfgTimeFormat (initConfig stdout opts))
                   (rTime r)).
  { unfold initReplaceAttr. rewrite He. reflexivity. }
  rewrite Ev.
  destruct (AddSource (ColorHandler.opts ch) && negb (rPC r =? 0));
    destruct (negb (isEmpty (ColorHandler.preformat ch)));
    cbn [append]; now rewrite !append_assoc.
Qed.

End Config.

Lemma init_timestamp_uses_configured_format_witness :
  env (initConfig 0 [WithTimeFormat "15:04:05"]) = Development /\
  rTime sampleRecord <> 0 /\
  ColorHandler.lineHead (rt := sampleRuntime)
    (ContextHandler.handler
       (initHandler (rt := sampleRuntime) 0 0 [WithTimeFormat "15:04:05"]))
    sampleRecord
  = (colorGray ++ "15:04:05" ++ colorReset ++ " ")
    ++ ColorHandler.lineHead (rt := sampleRuntime)
         (ContextHandler.handler
            (initHandler (rt := sampleRuntime) 0 0
               [WithTimeFormat "15:04:05"]))
         (mkRecord 0 (rLevel sampleRecord) (rMessage sampleRecord)
            (rPC sampleRecord) (rAttrs sampleRecord)).
Proof.
  assert (Ht : rTime sampleRecord <> 0) by (simpl; lia).
  split; [reflexivity|]. split; [exact Ht|].
  exact (init_timestamp_uses_configured_format (rt := sampleRuntime) 0 0
           [WithTimeFormat "15:04:05"] sampleRecord eq_refl Ht).
Defined.

(** ** The standard-log adapter *)

Lemma byteZ_newline : byteZ (zbyte 10) = 10.
Proof. reflexivity. Qed.

Lemma take_length_append (q t : string) : take (String.length q) (q ++ t) = q.
Proof. induction q as [|c q IH]; simpl; [now destruct t | now rewrite IH]. Qed.

Lemma byteAt_length_append (q : string) (c : ascii) (t : string) :
  byteAt (q ++ String c t) (String.length q) = byteZ c.
Proof.
  unfold byteAt. induction q as [|x q IH]; [reflexivity|]. exact IH.
Qed.

Lemma trimNewline_append_newline (q : string) : trimNewline (q ++ chr 10) = q.
Proof.
  unfold trimNewline. rewrite length_append.
  change (String.length (chr 10)) with 1%nat.
  replace (String.length q + 1 - 1)%nat with (String.length q) by lia.
  unfold chr. rewrite byteAt_length_append, take_length_append.
  destruct (String.length q + 1)%nat eqn:E; [lia|]. reflexivity.
Qed.

Lemma last_byte_endsWith (p : string) :
  p <> EmptyString ->
  (byteAt p (String.length p - 1) =? 10) = endsWithByte 10 p.
Proof.
  induction p as [|c p IH]; intros Hp; [contradiction|].
  destruct p as [|c' p'].
  - reflexivity.
  - assert (El : (String.length (String c (String c' p')) - 1
                  = S (String.length (String c' p') - 1))%nat)
      by (simpl; lia).
    rewrite El.
    change (endsWithByte 10 (String c (String c' p')))
      with (endsWithByte 10 (String c' p')).
    rewrite <- IH by discriminate. reflexivity.
Qed.

Lemma trimNewline_no_newline (p : string) :
  endsWithByte 10 p = false -> trimNewline p = p.
Proof.
  intros He. unfold trimNewline. destruct p as [|c p]; [reflexivity|].
  rewrite last_byte_endsWith by discriminate. rewrite He.
  now rewrite andb_false_r.
Qed.

Section Adapter.
Context {rt : GoRuntime}.

Lemma contextAttrs_Background (keys : list ContextKey) :
  contextAttrs keys Background = [].
Proof. unfold contextAttrs. induction keys; [reflexivity | exact IHkeys]. Qed.

(** X16.  [slogWriter.Write] logs its argument at the info level with
    one trailing newline removed -- one only, and none elsewhere --
    and answers [len(p), nil] whatever happens to the message: on the
    development chain the record has no attribute, so that for any
    hook the line is the head for that message and a newline, written
    once if info is enabled and not at all otherwise. *)
Theorem slogWriter_Write_logs_trimmed_message (fuel : nat)
  (h : ContextHandler.t ColorHandler.t) (p : string) (now : Time) (pc : Z)
  (st : Store) :
  let ch := ContextHandler.handler h in
  (forall q, trimNewline (q ++ chr 10) = q) /\
  (endsWithByte 10 p = false -> trimNewline p = p) /\
  slogWriter_Write fuel (mkSlogWriter (mkSlogLogger h)) p now pc st
  = Some (if minLevel ch <=? LevelInfo
          then recordWrite st (ColorHandler.output ch)
                 (ColorHandler.lineHead ch
                    (NewRecord now LevelInfo (trimNewline p) pc) ++ chr 10)
          else st,
          (Z.of_nat (String.length p), None)).
Proof.
  intros ch.
  split; [exact trimNewline_append_newline|].
  split; [exact (trimNewline_no_newline p)|].
  unfold slogWriter_Write, logWithCaller.
  cbn [swLogger lHandler hEnabled ContextHandler_Handler].
  unfold ContextHandler.Enabled. cbn [hEnabled ColorHandler_Handler].
  unfold ColorHandler.Enabled. fold ch. fold (minLevel ch).
  destruct (minLevel ch <=? LevelInfo); cbn [negb]; [|reflexivity].
  change (hHandle fuel h Background
            (AddAttrs (NewRecord now LevelInfo (trimNewline p) pc) []) st)
    with (ColorHandler.Handle fuel ch Background
            (ContextHandler.inject h Background
               (AddAttrs (NewRecord now LevelInfo (trimNewline p) pc) []))
            st).
  assert (Ei : ContextHandler.inject h Background
                 (AddAttrs (NewRecord now LevelInfo (trimNewline p) pc) [])
               = NewRecord now LevelInfo (trimNewline p) pc).
  { unfold ContextHandler.inject.
    rewrite extract_is_contextAttrs, contextAttrs_Background.
    reflexivity. }
  rewrite Ei. unfold ColorHandler.Handle, ColorHandler.formatLine.
  cbn [rAttrs NewRecord ColorHandler.appendRecordAttrs]. reflexivity.
Qed.

(** ** Calls in sequence *)

(** X17.  Calls made one after the other on a development chain whose
    hook does not deepen attributes all return; the handler's writer
    receives, after what it held, one buffer ending in a newline for
    each call at or above the minimum level and nothing for the
    others, and no other writer receives anything.  The recursion
    depth allowed is above the nesting depth of the attributes of each
    call and of those found in the context. *)
Theorem calls_in_sequence_write_one_buffer_each (fuel : nat)
  (h : ContextHandler.t ColorHandler.t) (ctx : Context)
  (calls : list call) (st : Store) :
  let ch := ContextHandler.handler h in
  hook_shrinks (ColorHandler.opts ch) ->
  forallb
    (fun c =>
       (attrs_depth
          (ContextHandler.extract (ContextHandler.keys h) ctx ++ cArgs c)
        <? fuel)%nat) calls = true ->
  exists st' lines,
    logAll fuel ctx (mkSlogLogger h) calls st = Some st' /\
    (forall w, st' w = if Nat.eqb w (ColorHandler.output ch)
                       then (st w ++ lines)%list else st w) /\
    List.length lines = List.length (enabledCalls (minLevel ch) calls) /\
    forallb (endsWithByte 10) lines = true.
Proof.
  intros ch Hh. revert st.
  induction calls as [|c calls IH]; intros st Hd.
  - exists st, []. repeat split.
    intros w. rewrite app_nil_r. now destruct (Nat.eqb w _).
  - cbn [forallb] in Hd. apply andb_true_iff in Hd. destruct Hd as [Hc Hd].
    apply Nat.ltb_lt in Hc. rewrite attrs_depth_app in Hc.
    destruct (dev_chain_log fuel h ctx (cLevel c) (cMsg c) (cArgs c)
                (cNow c) (cPC c) st Hh) as [frag [_ [_ [_ EL]]]]; [lia | lia |].
    fold ch in EL.
    set (line := (ColorHandler.lineHead ch
                    (ContextHandler.inject h ctx
                       (AddAttrs (NewRecord (cNow c) (cLevel c) (cMsg c)
                                    (cPC c)) (cArgs c))) ++ frag) ++ nl) in *.
    cbn [logAll]. rewrite EL.
    cbn [enabledCalls filter].
    destruct (minLevel ch <=? cLevel c).
    + destruct (IH (recordWrite st (ColorHandler.output ch) line) Hd)
        as [st' [lines [E [Hw [Hn He]]]]].
      exists st', (line :: lines). split; [exact E|]. split; [|split].
      * intros w. rewrite Hw. unfold recordWrite.
        destruct (Nat.eqb_spec w (ColorHandler.output ch)) as [->|_].
        -- now rewrite <- app_assoc.
        -- reflexivity.
      * cbn [List.length]. fold (enabledCalls (minLevel ch) calls).
        now rewrite Hn.
      * cbn [forallb]. rewrite He.
        unfold line, nl. rewrite (endsWithByte_append_chr 10) by lia.
        reflexivity.
    + destruct (IH st Hd) as [st' [lines [E [Hw [Hn He]]]]].
      exists st', lines. repeat split; assumption.
Qed.

End Adapter.

Lemma calls_in_sequence_write_one_buffer_each_witness :
  hook_shrinks (ColorHandler.opts plainHandler) /\
  forallb
    (fun c =>
       (attrs_depth
          (ContextHandler.extract [TraceIDKey; UserIDKey; RequestIDKey]
             Background ++ cArgs c)
        <? 1)%nat)
    [mkCall LevelDebug "skipped" [] 5 0;
     mkCall LevelWarn "kept" [("key", StringValue "value")] 6 0] = true /\
  exists st' lines,
    logAll (HH := sampleChain) 1 Background (embedded sampleLogger)
      [mkCall LevelDebug "skipped" [] 5 0;
       mkCall LevelWarn "kept" [("key", StringValue "value")] 6 0]
      emptyStore = Some st' /\
    (forall w, st' w = if Nat.eqb w 0 then (emptyStore w ++ lines)%list
                       else emptyStore w) /\
    List.length lines = 1%nat.
Proof.
  assert (Hh : hook_shrinks (ColorHandler.opts plainHandler)) by exact I.
  split; [exact Hh|]. split; [reflexivity|].
  destruct (calls_in_sequence_write_one_buffer_each (rt := sampleRuntime) 1
              (ContextHandler.mk plainHandler
                 [TraceIDKey; UserIDKey; RequestIDKey])
              Background
              [mkCall LevelDebug "skipped" [] 5 0;
               mkCall LevelWarn "kept" [("key", StringValue "value")] 6 0]
              emptyStore Hh eq_refl)
    as [st' [lines [E [Hw [Hn _]]]]].
  exists st', lines. split; [exact E|]. split; [exact Hw | exact Hn].
Defined.

(** ** Derived loggers *)

Section DerivedLoggers.
Context {rt : GoRuntime}.

(** X18.  Deriving a logger with [With] or [WithGroup] changes what
    the embedded logger's handler has bound and nothing else: the
    recognized keys, the level gate, the writer and the mutex are
    those of the logger it was derived from, and so is the [handler]
    field, which keeps the handler from before the binding.  With no
    attributes, or the empty name, the logger itself is returned. *)
Theorem derived_logger_keeps_keys_gate_and_writer (fuel : nat)
  (l : Logger (ContextHandler.t ColorHandler.t)) (args : list Attr)
  (name : string) (ctx : Context) (lv : Level) :
  let same := fun l' : Logger (ContextHandler.t ColorHandler.t) =>
    handler l' = handler l /\
    ContextHandler.keys (lHandler (embedded l'))
      = ContextHandler.keys (lHandler (embedded l)) /\
    hEnabled (lHandler (embedded l')) ctx lv
      = hEnabled (lHandler (embedded l)) ctx lv /\
    ColorHandler.output (ContextHandler.handler (lHandler (embedded l')))
      = ColorHandler.output (ContextHandler.handler (lHandler (embedded l))) /\
    ColorHandler.mu (ContextHandler.handler (lHandler (embedded l')))
      = ColorHandler.mu (ContextHandler.handler (lHandler (embedded l))) in
  Logger_With fuel l [] = Some l /\
  Logger_WithGroup l EmptyString = l /\
  same (Logger_WithGroup l name) /\
  (forall l', Logger_With fuel l args = Some l' -> same l').
Proof.
  cbv zeta. split; [|split; [|split]].
  - now destruct l.
  - now destruct l.
  - unfold Logger_WithGroup, SlogLogger_WithGroup.
    destruct (isEmpty name); cbn [embedded handler lHandler].
    + repeat split.
    + cbn [hWithGroup ContextHandler_Handler].
      unfold ContextHandler.WithGroup.
      cbn [ContextHandler.keys ContextHandler.handler hWithGroup
           ColorHandler_Handler hEnabled].
      unfold ContextHandler.Enabled. cbn [ContextHandler.handler hEnabled
        ColorHandler_Handler].
      unfold ColorHandler.WithGroup, ColorHandler.Enabled.
      destruct (isEmpty name); repeat split.
  - intros l'. unfold Logger_With, SlogLogger_With.
    destruct args as [|a args].
    + intros E. injection E as <-. repeat split.
    + cbn [hWithAttrs ContextHandler_Handler].
      unfold ContextHandler.WithAttrs.
      cbn [hWithAttrs ColorHandler_Handler].
      destruct (ColorHandler.WithAttrs fuel
                  (ContextHandler.handler (lHandler (embedded l))) (a :: args))
        as [ch'|] eqn:Ew; [|discriminate].
      intros E. injection E as <-.
      destruct (WithAttrs_keeps _ _ _ _ Ew) as [Ho [Hout Hmu]].
      cbn [embedded handler lHandler ContextHandler.keys
           ContextHandler.handler hEnabled ContextHandler_Handler].
      unfold ContextHandler.Enabled. cbn [ContextHandler.handler hEnabled
        ColorHandler_Handler].
      unfold ColorHandler.Enabled. rewrite Ho.
      repeat split; assumption.
Qed.

(** ** Bound attributes in the line *)

Lemma lineHead_preformat (h : ColorHandler.t) (r : LogRecord) :
  ColorHandler.lineHead h r
  = ColorHandler.lineHead
      (ColorHandler.mk (ColorHandler.opts h) (ColorHandler.output h)
         (ColorHandler.mu h) (ColorHandler.attrs h) (ColorHandler.groups h)
         EmptyString) r
    ++ (if isEmpty (ColorHandler.preformat h) then EmptyString
        else " " ++ ColorHandler.preformat h).
Proof.
  unfold ColorHandler.lineHead.
  cbn [ColorHandler.opts ColorHandler.preformat isEmpty negb].
  destruct (isEmpty (ColorHandler.preformat h)); cbn [negb].
  - now rewrite append_nil_r.
  - reflexivity.
Qed.

(** The text the attributes of a list append when each is rendered as
    one pair after a space. *)
Lemma appendRecordAttrs_plain (fuel : nat) (h : ColorHandler.t) :
  forall l buf,
  forallb (plainAttr h) l = true ->
  ColorHandler.appendRecordAttrs (S fuel) h buf l
  = Some (buf ++ String.concat EmptyString
                   (map (fun a => " " ++ plainText h a) l)).
Proof.
  induction l as [|a l IH]; intros buf Hl.
  - simpl. now rewrite append_nil_r.
  - simpl in Hl. apply andb_true_iff in Hl. destruct Hl as [Ha Hl].
    cbn [ColorHandler.appendRecordAttrs].
    rewrite plainAttr_appendAttr by exact Ha.
    rewrite IH by exact Hl. f_equal.
    change (String.concat EmptyString
              (map (fun a => " " ++ plainText h a) (a :: l)))
      with (String.concat EmptyString
              ((" " ++ plainText h a)
                 :: map (fun a => " " ++ plainText h a) l)).
    destruct l as [|b l].
    + cbn [map String.concat]. now rewrite append_nil_r, !append_assoc.
    + cbn [map String.concat]. now rewrite !append_assoc.
Qed.

Lemma preformatAttrs_plain (fuel : nat) (h : ColorHandler.t) :
  forall l buf,
  buf <> EmptyString ->
  forallb (plainAttr h) l = true ->
  ColorHandler.preformatAttrs (S fuel) h buf l
  = Some (buf ++ String.concat EmptyString
                   (map (fun a => " " ++ plainText h a) l)).
Proof.
  induction l as [|a l IH]; intros buf Hb Hl.
  - simpl. now rewrite append_nil_r.
  - simpl in Hl. apply andb_true_iff in Hl. destruct Hl as [Ha Hl].
    cbn [ColorHandler.preformatAttrs].
    apply isEmpty_false in Hb. rewrite Hb. cbn [negb].
    rewrite plainAttr_appendAttr by exact Ha.
    rewrite IH.
    + f_equal.
      change (String.concat EmptyString
                (map (fun a => " " ++ plainText h a) (a :: l)))
        with (String.concat EmptyString
                ((" " ++ plainText h a)
                   :: map (fun a => " " ++ plainText h a) l)).
      destruct l as [|b l].
      * cbn [map String.concat]. now rewrite append_nil_r, !append_assoc.
      * cbn [map String.concat]. now rewrite !append_assoc.
    + apply isEmpty_false. rewrite !isEmpty_append, Hb. reflexivity.
    + exact Hl.
Qed.

(** X19.  On a handler with nothing bound yet, attributes that are
    each rendered as one pair give the same line whether they are
    bound with [WithAttrs] and the record has none, or the record
    carries them. *)
Theorem bound_or_passed_attributes_give_the_same_line (fuel : nat)
  (h : ColorHandler.t) (l : list Attr) (t : Time) (lv : Level)
  (msg : string) (pc : Z) :
  ColorHandler.preformat h = EmptyString ->
  forallb (plainAttr h) l = true ->
  exists h',
    ColorHandler.WithAttrs (S fuel) h l = Some h' /\
    ColorHandler.formatLine (S fuel) h' (mkRecord t lv msg pc [])
    = ColorHandler.formatLine (S fuel) h (mkRecord t lv msg pc l).
Proof.
  intros Hp Hl.
  assert (Hhead : forall pre,
            ColorHandler.lineHead
              (ColorHandler.mk (ColorHandler.opts h) (ColorHandler.output h)
                 (ColorHandler.mu h) (ColorHandler.attrs h ++ l)
                 (ColorHandler.groups h) pre) (mkRecord t lv msg pc [])
            = ColorHandler.lineHead h (mkRecord t lv msg pc l)
              ++ (if isEmpty pre then EmptyString else " " ++ pre)).
  { intros pre. rewrite (lineHead_preformat (ColorHandler.mk _ _ _ _ _ _)).
    rewrite (lineHead_preformat h), Hp.
    cbn [ColorHandler.opts ColorHandler.preformat isEmpty].
    now rewrite append_nil_r. }
  unfold ColorHandler.formatLine. cbn [rAttrs].
  rewrite appendRecordAttrs_plain by exact Hl.
  unfold ColorHandler.WithAttrs.
  destruct l as [|a l].
  - cbn [ColorHandler.preformatAttrs isEmpty negb].
    eexists. split; [reflexivity|].
    cbn [rAttrs ColorHandler.appendRecordAttrs].
    rewrite Hhead, Hp. reflexivity.
  - simpl in Hl. apply andb_true_iff in Hl. destruct Hl as [Ha Hl].
    cbn [ColorHandler.preformatAttrs isEmpty negb].
    rewrite plainAttr_appendAttr by exact Ha. cbn [append].
    rewrite preformatAttrs_plain
      by (try exact Hl; apply plainText_not_empty).
    set (text := plainText h a
                   ++ String.concat EmptyString
                        (map (fun a0 => " " ++ plainText h a0) l)).
    assert (Hn : isEmpty text = false).
    { unfold text. rewrite isEmpty_append.
      pose proof (plainText_not_empty h a) as Hne.
      apply isEmpty_false in Hne. now rewrite Hne. }
    rewrite Hn, Hp. cbn [negb isEmpty append].
    eexists. split; [reflexivity|].
    cbn [rAttrs ColorHandler.appendRecordAttrs].
    rewrite Hhead, Hn. f_equal. f_equal. f_equal.
    unfold text. destruct l as [|b l].
    + cbn [map String.concat]. now rewrite !append_nil_r.
    + cbn [map String.concat]. reflexivity.
Qed.

End DerivedLoggers.

(** ** Call sites without a directory *)

Section BareCallSite.
Context {rt : GoRuntime}.

(** X20.  When the frame's file path has no slash after its first
    byte, the call site is the whole path, a colon and the line
    number -- also when the first byte is a slash; when the frame has
    no file, the call site is empty. *)
Theorem formatSource_without_later_slash (pc : Z) :
  noLaterSlash (File (callersFrame pc)) = true ->
  ColorHandler.formatSource pc
  = if isEmpty (File (callersFrame pc)) then EmptyString
    else File (callersFrame pc) ++ ":" ++ itoa (Line (callersFrame pc)).
Proof.
  unfold noLaterSlash, ColorHandler.formatSource.
  set (file := File (callersFrame pc)). intros Hno.
  destruct (isEmpty file); cbn [negb]; [reflexivity|].
  rewrite shortFrom_no_later_slash; [reflexivity|].
  intros i Hi. rewrite forallb_forall in Hno.
  specialize (Hno i). rewrite in_seq in Hno.
  assert (Hb : negb (byteAt file i =? 47) = true) by (apply Hno; lia).
  apply negb_true_iff, Z.eqb_neq in Hb. exact Hb.
Qed.

End BareCallSite.

Lemma formatSource_without_later_slash_witness :
  noLaterSlash (File (callersFrame (GoRuntime := sampleRuntime) 1)) = true /\
  ColorHandler.formatSource (rt := sampleRuntime) 1 = "/main.go:10".
Proof.
  split; [reflexivity|].
  exact (formatSource_without_later_slash (rt := sampleRuntime) 1 eq_refl).
Defined.

(** ** Line breaks in string values *)

Section NoControl.
Import Utf8 Strconv.

Lemma noControlByte_append (a b : string) :
  noControlByte (a ++ b) = noControlByte a && noControlByte b.
Proof.
  unfold noControlByte. induction a as [|c a IH]; [reflexivity|].
  cbn [append]. rewrite !bytes_cons. cbn [forallb].
  rewrite IH. now rewrite andb_assoc.
Qed.

Lemma noControlByte_count (s : string) (b : Z) :
  noControlByte s = true -> b < 32 -> countByte b s = O.
Proof.
  unfold noControlByte. intros Hs Hb.
  induction s as [|c s IH]; [reflexivity|].
  rewrite bytes_cons in Hs. cbn [forallb] in Hs.
  apply andb_true_iff in Hs. destruct Hs as [Hc Hs].
  cbn [countByte]. rewrite IH by exact Hs.
  apply Z.leb_le in Hc.
  destruct (Z.eqb_spec (byteZ c) b); [lia | reflexivity].
Qed.

Lemma noControlByte_hexDigits (n : nat) (r : Z) :
  noControlByte (hexDigits n r) = true.
Proof.
  induction n as [|n IH]; [reflexivity|].
  cbn [hexDigits]. rewrite noControlByte_append, IH, andb_true_r.
  unfold noControlByte, chr. rewrite bytes_cons. cbn [bytes forallb
    list_ascii_of_string map].
  set (d := (r / 16 ^ Z.of_nat n) mod 16).
  assert (Hd : 0 <= d < 16) by (apply Z.mod_pos_bound; lia).
  rewrite byteZ_zbyte by (unfold lowerhex; destruct (d <? 10); lia).
  rewrite andb_true_r. apply Z.leb_le.
  unfold lowerhex. destruct (d <? 10); lia.
Qed.

Lemma noControlByte_high (c : ascii) (s : string) :
  0x80 <= byteZ c -> noControlByte (String c s) = noControlByte s.
Proof.
  intros Hc. unfold noControlByte. rewrite bytes_cons. cbn [forallb].
  destruct (Z.leb_spec 32 (byteZ c)); [reflexivity | lia].
Qed.

Lemma noControlByte_raw (s : string) (r : Z) (w : nat) :
  Decoded s r w -> (2 <= w)%nat -> noControlByte (take w s) = true.
Proof.
  intros D Hw. destruct D; try lia; cbn [take];
    rewrite !noControlByte_high by lia; reflexivity.
Qed.

Section Table.
Variable isP : Z -> bool.

Lemma noControlByte_ascii (b : Z) :
  0 <= b < 128 -> noControlByte (escapedRune isP b) = true.
Proof.
  intros Hb. pattern b. apply (below_nat _ 128%nat); [|exact Hb].
  clear b Hb. intros k Hk.
  do 128 (destruct k as [|k]; [reflexivity|]).
  lia.
Qed.

Lemma noControlByte_multibyte (s : string) (r : Z) (w : nat) :
  Decoded s r w -> (2 <= w)%nat -> noControlByte (escapedRune isP r) = true.
Proof.
  intros D Hw.
  destruct (Decoded_rune s r w D Hw) as [Hr [Hv _]].
  pose proof (Encode_Decoded s r w D Hw) as Ee.
  unfold escapedRune, quoteChar, backslash.
  destruct (Z.eqb_spec r 34); [lia|]. destruct (Z.eqb_spec r 92); [lia|].
  cbn [orb].
  destruct (IsPrint isP r).
  { rewrite Ee. now apply (noControlByte_raw s r w). }
  repeat match goal with
         | |- context [r =? ?k] => destruct (Z.eqb_spec r k); [lia|]
         end.
  destruct (Z.ltb_spec r 32); [lia|]. cbn [orb].
  rewrite Hv. cbn [negb orb].
  destruct (r <? 65536); rewrite !noControlByte_append,
    noControlByte_hexDigits; reflexivity.
Qed.

(** Between its quotes, a quoted string holds no byte below [0x20]. *)
Lemma noControlByte_quoteLoop (n : nat) :
  forall s, noControlByte (quoteLoop isP n s) = true.
Proof.
  induction n as [|n IH]; intros s; [reflexivity|].
  destruct s as [|c0 t]; [reflexivity|].
  cbn [quoteLoop].
  pose proof (byteZ_range c0) as H0.
  unfold RuneSelf.
  destruct (Z.leb_spec 128 (byteZ c0)) as [Hhi|Hlo].
  - pose proof (decode_cases c0 t) as D.
    destruct (DecodeRuneInString (String c0 t)) as [r w] eqn:Ed.
    cbn [fst snd] in D.
    destruct (Nat.eqb_spec w 1) as [Ew|Nw].
    + subst w.
      assert (Er : r = RuneError) by (inversion D; subst; [lia | reflexivity]).
      subst r. cbn [andb]. change (RuneError =? RuneError) with true.
      cbn iota. rewrite !noControlByte_append, noControlByte_hexDigits, IH.
      reflexivity.
    + cbn [andb]. rewrite noControlByte_append, IH.
      pose proof (Decoded_width _ _ _ D) as Hw.
      rewrite (noControlByte_multibyte _ r w D) by lia. reflexivity.
  - unfold RuneError.
    destruct (Z.eqb_spec (byteZ c0) 65533); [lia|].
    rewrite andb_false_r, noControlByte_append, IH.
    rewrite noControlByte_ascii by lia. reflexivity.
Qed.

End Table.

Lemma holdsQuotingByte_count (s : string) (b : Z) :
  holdsQuotingByte s = false -> In b quotingBytes -> countByte b s = O.
Proof.
  unfold holdsQuotingByte. intros Hs Hb.
  induction s as [|c s IH]; [reflexivity|].
  rewrite bytes_cons in Hs. cbn [existsb] in Hs.
  apply orb_false_iff in Hs. destruct Hs as [Hc Hs].
  cbn [countByte]. rewrite IH by exact Hs.
  destruct (Z.eqb_spec (byteZ c) b) as [E|_]; [|reflexivity].
  exfalso. rewrite E in Hc.
  assert (Ht : existsb (Z.eqb b) quotingBytes = true).
  { apply existsb_exists. exists b. split; [exact Hb | apply Z.eqb_refl]. }
  congruence.
Qed.

End NoControl.

Section StringValueLines.
Context {rt : GoRuntime}.

(** X21.  However a string value is rendered, verbatim or quoted, the
    rendering holds no newline, no carriage return and no tab: a
    string value cannot break the line it is written in. *)
Theorem string_value_rendering_has_no_line_break (s : string) :
  countByte 10 (formatValue (StringValue s)) = O /\
  countByte 13 (formatValue (StringValue s)) = O /\
  countByte 9 (formatValue (StringValue s)) = O.
Proof.
  assert (H : forall b, In b [10; 13; 9] ->
                countByte b (formatValue (StringValue s)) = O).
  { intros b Hb. unfold formatValue.
    rewrite needsQuoting_holdsQuotingByte.
    destruct (holdsQuotingByte s) eqn:Eq.
    - apply noControlByte_count.
      + unfold Strconv.Quote.
        rewrite !noControlByte_append, noControlByte_quoteLoop. reflexivity.
      + simpl in Hb. lia.
    - apply holdsQuotingByte_count; [exact Eq|].
      unfold quotingBytes. simpl in *. tauto. }
  repeat split; apply H; simpl; tauto.
Qed.

End StringValueLines.

(** ** Instances of the properties above *)

Lemma scalar_attribute_key_is_reversed_group_path_witness :
  ReplaceAttr (ColorHandler.opts plainHandler) = None /\
  scalarAttr ("k", StringValue "v") = true /\
  ColorHandler.appendAttr (rt := sampleRuntime) 1 plainHandler EmptyString
    ("k", StringValue "v") ["a"; "b"; "c"]
  = Some (colorPurple ++ "c.b.a.k" ++ colorReset ++ "=v").
Proof.
  split; [reflexivity|]. split; [reflexivity|].
  exact (scalar_attribute_key_is_reversed_group_path (rt := sampleRuntime) 0
           plainHandler EmptyString ("k", StringValue "v") ["a"; "b"; "c"]
           eq_refl eq_refl).
Defined.

Lemma rendering_ends_within_nesting_depth_witness :
  hook_shrinks (ColorHandler.opts plainHandler) /\
  (Attr_depth ("g", GroupValue [("k", StringValue "v")]) < 2)%nat /\
  exists frag, forall fuel', (2 <= fuel')%nat ->
    ColorHandler.appendAttr (rt := sampleRuntime) fuel' plainHandler "x"
      ("g", GroupValue [("k", StringValue "v")]) []
    = Some ("x" ++ frag).
Proof.
  assert (Hh : hook_shrinks (ColorHandler.opts plainHandler)) by exact I.
  assert (Hd : (Attr_depth ("g", GroupValue [("k", StringValue "v")]) < 2)%nat)
    by (cbv; lia).
  split; [exact Hh|]. split; [exact Hd|].
  exact (rendering_ends_within_nesting_depth (rt := sampleRuntime) 2
           plainHandler "x" ("g", GroupValue [("k", StringValue "v")]) []
           Hh Hd).
Defined.

Lemma nesting_hook_never_returns_witness :
  ReplaceAttr (ColorHandler.opts wrappingHandler) = Some wrappingHook /\
  hook_nests wrappingHook /\
  existsb (fun a => negb (isEmptyAttr a)) (rAttrs sampleRecord) = true /\
  ColorHandler.Handle (rt := sampleRuntime) 1000 wrappingHandler Background
    sampleRecord emptyStore = None.
Proof.
  split; [reflexivity|]. split; [exact wrappingHook_nests|].
  split; [reflexivity|].
  exact (proj2 (nesting_hook_never_returns (rt := sampleRuntime) wrappingHook
                  wrappingHandler eq_refl wrappingHook_nests)
           1000%nat Background sampleRecord emptyStore eq_refl).
Defined.

Lemma rendering_only_appends_witness :
  ColorHandler.appendAttr (rt := sampleRuntime) 1 plainHandler "x"
    ("k", StringValue "v") []
  = Some ("x" ++ colorPurple ++ "k" ++ colorReset ++ "=v") /\
  exists frag,
    "x" ++ colorPurple ++ "k" ++ colorReset ++ "=v" = "x" ++ frag /\
    forall buf', isEmpty buf' = isEmpty "x" ->
      ColorHandler.appendAttr (rt := sampleRuntime) 1 plainHandler buf'
        ("k", StringValue "v") []
      = Some (buf' ++ frag).
Proof.
  split; [reflexivity|].
  exact (rendering_only_appends (rt := sampleRuntime) 1 plainHandler "x"
           ("k", StringValue "v") []
           ("x" ++ colorPurple ++ "k" ++ colorReset ++ "=v") eq_refl).
Defined.

Lemma group_of_scalars_is_flattened_witness :
  ReplaceAttr (ColorHandler.opts plainHandler) = None /\
  forallb scalarAttr [("method", StringValue "GET"); ("status", Int64Value 200)]
  = true /\
  ColorHandler.appendAttr (rt := sampleRuntime) 2 plainHandler "x"
    ("http", GroupValue [("method", StringValue "GET");
                         ("status", Int64Value 200)]) []
  = Some ("x " ++ colorPurple ++ "http.method" ++ colorReset ++ "=GET "
            ++ colorPurple ++ "http.status" ++ colorReset ++ "=200").
Proof.
  split; [reflexivity|]. split; [reflexivity|].
  exact (group_of_scalars_is_flattened (rt := sampleRuntime) 0 plainHandler
           "x" "http" ("method", StringValue "GET")
           [("status", Int64Value 200)] [] eq_refl eq_refl).
Defined.

Lemma empty_record_attributes_leave_their_spaces_witness :
  forallb isEmptyAttr
    (rAttrs (mkRecord 0 LevelInfo "m" 0
               [(EmptyString, AnyValue o_nil); (EmptyString, AnyValue o_nil)]))
  = true /\
  ColorHandler.formatLine (rt := sampleRuntime) 1 plainHandler
    (mkRecord 0 LevelInfo "m" 0
       [(EmptyString, AnyValue o_nil); (EmptyString, AnyValue o_nil)])
  = Some (colorGreen ++ "INF" ++ colorReset ++ " " ++ colorBold ++ "m"
            ++ colorReset ++ "  " ++ chr 10).
Proof.
  split; [reflexivity|].
  exact (empty_record_attributes_leave_their_spaces (rt := sampleRuntime) 0
           plainHandler
           (mkRecord 0 LevelInfo "m" 0
              [(EmptyString, AnyValue o_nil); (EmptyString, AnyValue o_nil)])
           eq_refl).
Defined.

Lemma binding_empty_attributes_adds_no_text_witness :
  forallb isEmptyAttr [(EmptyString, AnyValue o_nil)] = true /\
  option_map ColorHandler.preformat
    (ColorHandler.WithAttrs (rt := sampleRuntime) 1 plainHandler
       [(EmptyString, AnyValue o_nil)])
  = Some EmptyString.
Proof.
  split; [reflexivity|].
  exact (f_equal (option_map ColorHandler.preformat)
           (binding_empty_attributes_adds_no_text (rt := sampleRuntime) 0
              plainHandler [(EmptyString, AnyValue o_nil)] eq_refl)).
Defined.

Lemma WithAttrs_extends_the_receiver_witness :
  ColorHandler.WithAttrs (rt := sampleRuntime) 1 plainHandler
    [("service", StringValue "api")]
  = Some (ColorHandler.mk (ColorHandler.opts plainHandler) 0 0
            [("service", StringValue "api")] []
            (colorPurple ++ "service" ++ colorReset ++ "=api")) /\
  ColorHandler.output
    (ColorHandler.mk (ColorHandler.opts plainHandler) 0 0
       [("service", StringValue "api")] []
       (colorPurple ++ "service" ++ colorReset ++ "=api"))
  = ColorHandler.output plainHandler.
Proof.
  split; [reflexivity|].
  exact (proj1 (proj2 (WithAttrs_extends_the_receiver (rt := sampleRuntime) 1
                         plainHandler _ [("service", StringValue "api")]
                         eq_refl))).
Defined.

Lemma bound_or_passed_attributes_give_the_same_line_witness :
  ColorHandler.preformat plainHandler = EmptyString /\
  forallb (plainAttr plainHandler)
    [("a", StringValue "1"); ("b", StringValue "2")] = true /\
  exists h',
    ColorHandler.WithAttrs (rt := sampleRuntime) 1 plainHandler
      [("a", StringValue "1"); ("b", StringValue "2")] = Some h' /\
    ColorHandler.formatLine (rt := sampleRuntime) 1 h'
      (mkRecord 5 LevelInfo "m" 0 [])
    = ColorHandler.formatLine (rt := sampleRuntime) 1 plainHandler
        (mkRecord 5 LevelInfo "m" 0
           [("a", StringValue "1"); ("b", StringValue "2")]).
Proof.
  split; [reflexivity|]. split; [reflexivity|].
  exact (bound_or_passed_attributes_give_the_same_line (rt := sampleRuntime)
           0 plainHandler [("a", StringValue "1"); ("b", StringValue "2")]
           5 LevelInfo "m" 0 eq_refl eq_refl).
Defined.

Lemma slogWriter_Write_logs_trimmed_message_witness :
  endsWithByte 10 "listening" = false /\
  trimNewline "listening" = "listening".
Proof.
  split; [reflexivity|].
  exact (proj1 (proj2 (slogWriter_Write_logs_trimmed_message
                         (rt := sampleRuntime) 1
                         (initHandler (rt := sampleRuntime) 0 0 [])
                         "listening" 5 1 emptyStore)) eq_refl).
Defined.

Lemma derived_logger_keeps_keys_gate_and_writer_witness :
  exists l',
    Logger_With (HH := sampleChain) 2 sampleLogger
      [("service", StringValue "api")] = Some l' /\
    handler l' = handler sampleLogger /\
    ContextHandler.keys (lHandler (embedded l'))
    = [TraceIDKey; UserIDKey; RequestIDKey].
Proof.
  eexists. split; [reflexivity|].
  destruct (proj2 (proj2 (proj2
              (derived_logger_keeps_keys_gate_and_writer
                 (rt := sampleRuntime) 2 sampleLogger
                 [("service", StringValue "api")] "db" Background LevelInfo)))
              _ eq_refl) as [Hh [Hk _]].
  split; [exact Hh | exact Hk].
Defined.
